(** * Face-recognition matching pipeline of the memory-aid AR viewer

    A shallow embedding of
      - [services/faceDetection.ts]: [compareFaces], [findBestMatch];
      - [pages/ARViewer.tsx]: the [recognize] poll cycle and the [animate]
        smoothing step;
      - [services/gemini.ts]: [summarizeConversation], [createFallbackSummary].

    JavaScript numbers are idealised as real numbers ([R]): rounding, NaN and
    the narrowing done by [new Float32Array(..)] are outside the model.
    Person ids are integers ([Z]).  Exceptions are explicit ([outcome]), and
    the two effects the properties talk about (the per-candidate
    [console.log] of [findBestMatch] and the [getLatestConversation] query)
    are recorded in a trace.  An [async] function is modelled by what its
    promise settles to; a call of [recognize] is one step, which runs from
    its entry to the re-arming of its timer, and a React state setter is an
    assignment. *)

From Stdlib Require Import String Ascii DecimalString PrimFloat.
From Stdlib Require Import Reals Lra Lia ZArith Bool List Permutation Sorted.
Import ListNotations.

Open Scope R_scope.

(** ** Exceptions and traces *)

Inductive exn : Type :=
| Error (message : string)
| TypeError (message : string)
| SyntaxError (message : string).

Inductive outcome (A : Type) : Type :=
| Returned (value : A)
| Thrown (e : exn).
Arguments Returned {A} value.
Arguments Thrown {A} e.

Inductive event : Type :=
| LogComparison (personId : Z) (similarity : R)
| QueryLatestConversation (personId : Z).

(** A computation that may log, query the store, and throw. *)
Definition Eff (A : Type) : Type := (list event * outcome A)%type.

Definition ret {A} (a : A) : Eff A := ([], Returned a).
Definition throw {A} (e : exn) : Eff A := ([], Thrown e).
Definition emit (ev : event) : Eff unit := ([ev], Returned tt).
Definition lift {A} (o : outcome A) : Eff A := ([], o).

Definition bind {A B} (m : Eff A) (k : A -> Eff B) : Eff B :=
  match m with
  | (t, Returned a) => let (t', r) := k a in (t ++ t', r)
  | (t, Thrown e) => (t, Thrown e)
  end.

Notation "x <- m ;; k" := (bind m (fun x => k))
  (at level 61, m at next level, right associativity).
Notation "m ;;; k" := (bind m (fun _ => k))
  (at level 61, right associativity).

Definition trace {A} (m : Eff A) : list event := fst m.
Definition result {A} (m : Eff A) : outcome A := snd m.

(** ** services/faceDetection.ts *)

Module FaceDetection.

Definition descriptor := list R.

Fixpoint mapi_from {A B} (f : A -> nat -> B) (i : nat) (l : list A) : list B :=
  match l with
  | [] => []
  | a :: l' => f a i :: mapi_from f (S i) l'
  end.

(** [arr.map((val, i) => ..)] *)
Definition mapi {A B} (f : A -> nat -> B) (l : list A) : list B :=
  mapi_from f 0 l.

Definition DimensionMismatch : exn :=
  Error "euclideanDistance: arr1.length !== arr2.length".

(** Modelled from the spec: [faceapi.euclideanDistance] is imported from the
    package [@vladmandic/face-api], which is not part of the sources.  The
    matcher contract asks for the Euclidean distance of two embeddings of the
    same length and for a [DimensionMismatch] failure otherwise; the model
    follows the package's map/reduce formulation:
      [if (arr1.length !== arr2.length) throw ..;
       sqrt(desc1.map((val, i) => val - desc2[i])
                 .reduce((res, diff) => res + diff ** 2, 0))]. *)
Definition euclideanDistance (arr1 arr2 : descriptor) : outcome R :=
  if Nat.eqb (length arr1) (length arr2) then
    let diffs := mapi (fun val i => val - nth i arr2 0) arr1 in
    Returned (sqrt (fold_left (fun res diff => res + diff ^ 2) diffs 0))
  else Thrown DimensionMismatch.

(** [compareFaces]: both arguments are turned into [Float32Array]s (the
    identity on the idealised numbers) and the distance is converted into a
    similarity. *)
Definition compareFaces (descriptor1 descriptor2 : descriptor) : outcome R :=
  match euclideanDistance descriptor1 descriptor2 with
  | Returned distance =>
      let similarity := Rmax 0 (1 - distance) in
      Returned similarity
  | Thrown e => Thrown e
  end.

Record StoredPerson : Type := { id : Z; descriptor_of : descriptor }.

Record Match : Type := { personId : Z; similarity : R }.

Definition MATCH_THRESHOLD : R := 0.4.

(** The body of [for (const person of storedPeople)] with the running
    [bestMatch] threaded through. *)
Fixpoint scanPeople (detectedDescriptor : descriptor)
    (storedPeople : list StoredPerson) (bestMatch : Match) : Eff Match :=
  match storedPeople with
  | [] => ret bestMatch
  | person :: rest =>
      sim <- lift (compareFaces detectedDescriptor (descriptor_of person)) ;;
      emit (LogComparison (id person) sim) ;;;
      scanPeople detectedDescriptor rest
        (if Rgt_dec sim (similarity bestMatch)
         then {| personId := id person; similarity := sim |}
         else bestMatch)
  end.

Definition findBestMatch (detectedDescriptor : descriptor)
    (storedPeople : list StoredPerson) : Eff (option Match) :=
  match storedPeople with
  | [] => ret None
  | _ =>
      bestMatch <- scanPeople detectedDescriptor storedPeople
                     {| personId := (-1)%Z; similarity := 0 |} ;;
      if Rge_dec (similarity bestMatch) MATCH_THRESHOLD
      then ret (Some bestMatch)
      else ret None
  end.

(** *** Reference definitions used to state the matcher's properties *)

(** Sum of the squared coordinate differences. *)
Fixpoint sumSquaredDiff (a b : descriptor) : R :=
  match a, b with
  | x :: a', y :: b' => (x - y) ^ 2 + sumSquaredDiff a' b'
  | _, _ => 0
  end.

(** The Euclidean distance of the textbook. *)
Definition distance (a b : descriptor) : R := sqrt (sumSquaredDiff a b).

(** [max(0, 1 - distance)] *)
Definition score (query : descriptor) (candidate : StoredPerson) : R :=
  Rmax 0 (1 - distance query (descriptor_of candidate)).

(** Every candidate has the dimension of the query. *)
Definition sameDimension (query : descriptor) (people : list StoredPerson)
  : Prop :=
  Forall (fun p => length (descriptor_of p) = length query) people.

(** The update of the running best in one iteration of the loop, on
    scores. *)
Definition pick (q : descriptor) (best : Match) (p : StoredPerson) : Match :=
  if Rgt_dec (score q p) (similarity best)
  then {| personId := id p; similarity := score q p |}
  else best.

(** The initial value of [bestMatch]. *)
Definition sentinel : Match := {| personId := (-1)%Z; similarity := 0 |}.

(** What [findBestMatch] makes of the value left by the scan. *)
Definition aboveThreshold (best : Match) : option Match :=
  if Rge_dec (similarity best) MATCH_THRESHOLD then Some best else None.


(** The line logged for a candidate. *)
Definition logOf (q : descriptor) (p : StoredPerson) : event :=
  LogComparison (id p) (score q p).

End FaceDetection.

(** ** db/database.ts *)

Module Database.

(** [Person]; the photo blob, its URL and the two timestamps are never read
    by the recognition pipeline and are left out. *)
Record Person : Type := {
  id : option Z;
  name : string;
  relation : string;
  faceDescriptor : option (list R)
}.

Record Conversation : Type := {
  conversationId : option Z;
  personId : Z;
  rawText : string;
  summary : string;
  date : Z;
  createdAt : Z
}.

End Database.

(** ** pages/ARViewer.tsx *)

Module ARViewer.

Import FaceDetection.

Record Point : Type := { x : R; y : R }.

Record FacePosition : Type := { faceX : R; faceY : R; width : R; height : R }.

Record FaceDetectionResult : Type := {
  position : FacePosition;
  descriptor : option FaceDetection.descriptor
}.

(** [DetectedPerson extends Person] *)
Record DetectedPerson : Type := {
  person : Database.Person;
  lastConvo : option string
}.

(** The component's [useState] cells and [useRef] cells.  A state setter is
    modelled as an assignment; [videoMounted] stands for [videoRef.current]
    being non-null and [hasStream] for its [srcObject]. *)
Record State : Type := {
  detectedPerson : option DetectedPerson;
  cameraActive : bool;
  isRayBanMode : bool;
  isTracking : bool;
  recognitionStatus : string;
  targetPos : Point;
  smoothPos : Point;
  overlayPos : Point;
  lastMatchedId : option Z;
  recognitionLoop : bool;
  modelsReady : bool;
  storedDescriptors : list StoredPerson;
  allPeople : list Database.Person;
  videoMounted : bool;
  hasStream : bool
}.

Definition setDetectedPerson (v : option DetectedPerson) (s : State) : State :=
  {| detectedPerson := v; cameraActive := cameraActive s;
     isRayBanMode := isRayBanMode s; isTracking := isTracking s;
     recognitionStatus := recognitionStatus s; targetPos := targetPos s;
     smoothPos := smoothPos s; overlayPos := overlayPos s;
     lastMatchedId := lastMatchedId s; recognitionLoop := recognitionLoop s;
     modelsReady := modelsReady s; storedDescriptors := storedDescriptors s;
     allPeople := allPeople s; videoMounted := videoMounted s;
     hasStream := hasStream s |}.

Definition setCameraActive (v : bool) (s : State) : State :=
  {| detectedPerson := detectedPerson s; cameraActive := v;
     isRayBanMode := isRayBanMode s; isTracking := isTracking s;
     recognitionStatus := recognitionStatus s; targetPos := targetPos s;
     smoothPos := smoothPos s; overlayPos := overlayPos s;
     lastMatchedId := lastMatchedId s; recognitionLoop := recognitionLoop s;
     modelsReady := modelsReady s; storedDescriptors := storedDescriptors s;
     allPeople := allPeople s; videoMounted := videoMounted s;
     hasStream := hasStream s |}.

Definition setIsRayBanMode (v : bool) (s : State) : State :=
  {| detectedPerson := detectedPerson s; cameraActive := cameraActive s;
     isRayBanMode := v; isTracking := isTracking s;
     recognitionStatus := recognitionStatus s; targetPos := targetPos s;
     smoothPos := smoothPos s; overlayPos := overlayPos s;
     lastMatchedId := lastMatchedId s; recognitionLoop := recognitionLoop s;
     modelsReady := modelsReady s; storedDescriptors := storedDescriptors s;
     allPeople := allPeople s; videoMounted := videoMounted s;
     hasStream := hasStream s |}.

Definition setIsTracking (v : bool) (s : State) : State :=
  {| detectedPerson := detectedPerson s; cameraActive := cameraActive s;
     isRayBanMode := isRayBanMode s; isTracking := v;
     recognitionStatus := recognitionStatus s; targetPos := targetPos s;
     smoothPos := smoothPos s; overlayPos := overlayPos s;
     lastMatchedId := lastMatchedId s; recognitionLoop := recognitionLoop s;
     modelsReady := modelsReady s; storedDescriptors := storedDescriptors s;
     allPeople := allPeople s; videoMounted := videoMounted s;
     hasStream := hasStream s |}.

Definition setRecognitionStatus (v : string) (s : State) : State :=
  {| detectedPerson := detectedPerson s; cameraActive := cameraActive s;
     isRayBanMode := isRayBanMode s; isTracking := isTracking s;
     recognitionStatus := v; targetPos := targetPos s;
     smoothPos := smoothPos s; overlayPos := overlayPos s;
     lastMatchedId := lastMatchedId s; recognitionLoop := recognitionLoop s;
     modelsReady := modelsReady s; storedDescriptors := storedDescriptors s;
     allPeople := allPeople s; videoMounted := videoMounted s;
     hasStream := hasStream s |}.

Definition setTargetPos (v : Point) (s : State) : State :=
  {| detectedPerson := detectedPerson s; cameraActive := cameraActive s;
     isRayBanMode := isRayBanMode s; isTracking := isTracking s;
     recognitionStatus := recognitionStatus s; targetPos := v;
     smoothPos := smoothPos s; overlayPos := overlayPos s;
     lastMatchedId := lastMatchedId s; recognitionLoop := recognitionLoop s;
     modelsReady := modelsReady s; storedDescriptors := storedDescriptors s;
     allPeople := allPeople s; videoMounted := videoMounted s;
     hasStream := hasStream s |}.

Definition setSmoothPos (v : Point) (s : State) : State :=
  {| detectedPerson := detectedPerson s; cameraActive := cameraActive s;
     isRayBanMode := isRayBanMode s; isTracking := isTracking s;
     recognitionStatus := recognitionStatus s; targetPos := targetPos s;
     smoothPos := v; overlayPos := overlayPos s;
     lastMatchedId := lastMatchedId s; recognitionLoop := recognitionLoop s;
     modelsReady := modelsReady s; storedDescriptors := storedDescriptors s;
     allPeople := allPeople s; videoMounted := videoMounted s;
     hasStream := hasStream s |}.

Definition setOverlayPos (v : Point) (s : State) : State :=
  {| detectedPerson := detectedPerson s; cameraActive := cameraActive s;
     isRayBanMode := isRayBanMode s; isTracking := isTracking s;
     recognitionStatus := recognitionStatus s; targetPos := targetPos s;
     smoothPos := smoothPos s; overlayPos := v;
     lastMatchedId := lastMatchedId s; recognitionLoop := recognitionLoop s;
     modelsReady := modelsReady s; storedDescriptors := storedDescriptors s;
     allPeople := allPeople s; videoMounted := videoMounted s;
     hasStream := hasStream s |}.

Definition setLastMatchedId (v : option Z) (s : State) : State :=
  {| detectedPerson := detectedPerson s; cameraActive := cameraActive s;
     isRayBanMode := isRayBanMode s; isTracking := isTracking s;
     recognitionStatus := recognitionStatus s; targetPos := targetPos s;
     smoothPos := smoothPos s; overlayPos := overlayPos s;
     lastMatchedId := v; recognitionLoop := recognitionLoop s;
     modelsReady := modelsReady s; storedDescriptors := storedDescriptors s;
     allPeople := allPeople s; videoMounted := videoMounted s;
     hasStream := hasStream s |}.

Definition setRecognitionLoop (v : bool) (s : State) : State :=
  {| detectedPerson := detectedPerson s; cameraActive := cameraActive s;
     isRayBanMode := isRayBanMode s; isTracking := isTracking s;
     recognitionStatus := recognitionStatus s; targetPos := targetPos s;
     smoothPos := smoothPos s; overlayPos := overlayPos s;
     lastMatchedId := lastMatchedId s; recognitionLoop := v;
     modelsReady := modelsReady s; storedDescriptors := storedDescriptors s;
     allPeople := allPeople s; videoMounted := videoMounted s;
     hasStream := hasStream s |}.

Definition setModelsReady (v : bool) (s : State) : State :=
  {| detectedPerson := detectedPerson s; cameraActive := cameraActive s;
     isRayBanMode := isRayBanMode s; isTracking := isTracking s;
     recognitionStatus := recognitionStatus s; targetPos := targetPos s;
     smoothPos := smoothPos s; overlayPos := overlayPos s;
     lastMatchedId := lastMatchedId s; recognitionLoop := recognitionLoop s;
     modelsReady := v; storedDescriptors := storedDescriptors s;
     allPeople := allPeople s; videoMounted := videoMounted s;
     hasStream := hasStream s |}.

Definition setRoster (people : list Database.Person)
    (descriptors : list StoredPerson) (s : State) : State :=
  {| detectedPerson := detectedPerson s; cameraActive := cameraActive s;
     isRayBanMode := isRayBanMode s; isTracking := isTracking s;
     recognitionStatus := recognitionStatus s; targetPos := targetPos s;
     smoothPos := smoothPos s; overlayPos := overlayPos s;
     lastMatchedId := lastMatchedId s; recognitionLoop := recognitionLoop s;
     modelsReady := modelsReady s; storedDescriptors := descriptors;
     allPeople := people; videoMounted := videoMounted s;
     hasStream := hasStream s |}.

Definition setHasStream (v : bool) (s : State) : State :=
  {| detectedPerson := detectedPerson s; cameraActive := cameraActive s;
     isRayBanMode := isRayBanMode s; isTracking := isTracking s;
     recognitionStatus := recognitionStatus s; targetPos := targetPos s;
     smoothPos := smoothPos s; overlayPos := overlayPos s;
     lastMatchedId := lastMatchedId s; recognitionLoop := recognitionLoop s;
     modelsReady := modelsReady s; storedDescriptors := storedDescriptors s;
     allPeople := allPeople s; videoMounted := videoMounted s;
     hasStream := v |}.

(** The values given to [useState] and [useRef] when the component mounts. *)
Definition mounted : State :=
  {| detectedPerson := None; cameraActive := false; isRayBanMode := false;
     isTracking := false; recognitionStatus := "Loading AI...";
     targetPos := {| x := 75; y := 30 |};
     smoothPos := {| x := 75; y := 30 |};
     overlayPos := {| x := 75; y := 30 |};
     lastMatchedId := None; recognitionLoop := false; modelsReady := false;
     storedDescriptors := []; allPeople := [];
     videoMounted := true; hasStream := false |}.

(** [initializeAR]: the descriptor lookup keeps the people that have both a
    (non-zero) id and a face descriptor. *)
Fixpoint buildDescriptors (people : list Database.Person) : list StoredPerson :=
  match people with
  | [] => []
  | p :: rest =>
      match Database.id p, Database.faceDescriptor p with
      | Some i, Some d =>
          if Z.eqb i 0 then buildDescriptors rest
          else {| id := i; descriptor_of := d |} :: buildDescriptors rest
      | _, _ => buildDescriptors rest
      end
  end.

(** [startFaceRecognition] up to the first call of [recognize]. *)
Definition startFaceRecognition (s : State) : State :=
  if recognitionLoop s then s else setRecognitionLoop true s.

(** What [getUserMedia] followed by [video.play()] can do. *)
Inductive CameraOutcome : Type :=
| Playing
| PlayAborted
| AccessRefused
| CameraFailure.

Definition startCamera (camera : CameraOutcome) (s : State) : State :=
  if videoMounted s then
    match camera with
    | Playing =>
        startFaceRecognition (setCameraActive true (setHasStream true s))
    | PlayAborted => setHasStream true s
    | AccessRefused => setRecognitionStatus "Camera access denied" s
    | CameraFailure => setRecognitionStatus "Camera error" s
    end
  else
    match camera with
    | Playing | PlayAborted => s
    | AccessRefused => setRecognitionStatus "Camera access denied" s
    | CameraFailure => setRecognitionStatus "Camera error" s
    end.

(** [initializeAR] for a component that stays mounted: [people] is what
    [getAllPeople] resolved to and [loaded] what [loadFaceDetectionModels]
    resolved to. *)
Definition initializeAR (people : list Database.Person) (loaded : bool)
    (camera : CameraOutcome) (s : State) : State :=
  let s := setRoster people (buildDescriptors people) s in
  let s := setRecognitionStatus "Loading AI models..." s in
  let s := setModelsReady loaded s in
  let s := setRecognitionStatus
             (if loaded then "Scanning..." else "AI failed to load") s in
  startCamera camera s.

(** How a call of [recognize] ends: it re-arms its timer, returns without
    doing so, or its promise is rejected. *)
Inductive Completion : Type :=
| Rescheduled (delayMs : Z)
| Stopped
| Rejected (e : exn).

(** [Math.round] *)
Definition Math_round (v : R) : Z := Int_part (v + 1 / 2).

Definition percent (v : R) : string :=
  DecimalString.NilZero.string_of_int (Z.to_int (Math_round (v * 100))).

Definition hasId (personId : Z) (p : Database.Person) : bool :=
  match Database.id p with
  | Some i => Z.eqb i personId
  | None => false
  end.

Definition sameId (personId : Z) (last : option Z) : bool :=
  match last with
  | Some i => Z.eqb personId i
  | None => false
  end.

Section Recognize.

(** The answer of the conversation store to [getLatestConversation]. *)
Variable getLatestConversation : Z -> option Database.Conversation.

(** [convo?.summary || 'No recent conversations recorded.'] *)
Definition summaryOrDefault (convo : option Database.Conversation) : string :=
  match convo with
  | Some c =>
      if String.eqb (Database.summary c) EmptyString
      then "No recent conversations recorded."
      else Database.summary c
  | None => "No recent conversations recorded."
  end.

(** One run of [recognize], from its entry to the point where it re-arms its
    timer.  [detection] is what [detectFaceWithDescriptor] resolves to when
    it is called. *)
Definition recognize (s : State) (detection : option FaceDetectionResult)
  : State * list event * Completion :=
  if negb (recognitionLoop s) then (s, [], Stopped)
  else if negb (videoMounted s) || negb (modelsReady s)
  then (s, [], Rescheduled 500)
  else
    match detection with
    | Some result =>
        let s :=
          setTargetPos
            {| x := Rmin (faceX (position result) + 8) 85;
               y := Rmax (faceY (position result) - 5) 10 |} s in
        let s := setIsTracking true s in
        match descriptor result, storedDescriptors s with
        | Some d, _ :: _ =>
            match findBestMatch d (storedDescriptors s) with
            | (log, Thrown e) => (s, log, Rejected e)
            | (log, Returned (Some m)) =>
                if negb (sameId (personId m) (lastMatchedId s)) then
                  let s := setLastMatchedId (Some (personId m)) s in
                  match find (hasId (personId m)) (allPeople s) with
                  | Some matchedPerson =>
                      (* [matchedPerson.id!]: the person was found by
                         this id *)
                      let key :=
                        match Database.id matchedPerson with
                        | Some i => i
                        | None => personId m
                        end in
                      let convo := getLatestConversation key in
                      let shown :=
                        {| person := matchedPerson;
                           lastConvo := Some (summaryOrDefault convo) |} in
                      let s := setDetectedPerson (Some shown) s in
                      let label :=
                        ("Recognized (" ++ percent (similarity m) ++ "%)")
                          %string in
                      let s := setRecognitionStatus label s in
                      (s, log ++ [QueryLatestConversation key], Rescheduled 200)
                  | None => (s, log, Rescheduled 200)
                  end
                else (s, log, Rescheduled 200)
            | (log, Returned None) =>
                let s := setRecognitionStatus "Unknown face" s in
                let s :=
                  match lastMatchedId s with
                  | Some _ => setDetectedPerson None (setLastMatchedId None s)
                  | None => s
                  end in
                (s, log, Rescheduled 200)
            end
        | _, [] =>
            (setRecognitionStatus "No faces registered" s, [], Rescheduled 200)
        | None, _ :: _ =>
            (setRecognitionStatus "Analyzing face..." s, [], Rescheduled 200)
        end
    | None =>
        let s := setIsTracking false s in
        let s := setRecognitionStatus "Scanning..." s in
        (s, [], Rescheduled 200)
    end.

End Recognize.

(** One frame of [animate]. *)
Definition animate (s : State) : State :=
  let sx := x (smoothPos s) + (x (targetPos s) - x (smoothPos s)) * 0.12 in
  let sy := y (smoothPos s) + (y (targetPos s) - y (smoothPos s)) * 0.12 in
  let s := setSmoothPos {| x := sx; y := sy |} s in
  setOverlayPos (smoothPos s) s.

(** The same update of one coordinate in the binary64 arithmetic of
    JavaScript numbers, to compare the idealised step with. *)
#[local] Set Warnings "-inexact-float".
Definition animateAxis64 (target smooth : float) : float :=
  (smooth + (target - smooth) * 0.12)%float.
#[local] Set Warnings "inexact-float".

Fixpoint framesAxis64 (n : nat) (target smooth : float) : float :=
  match n with
  | O => smooth
  | S n' => framesAxis64 n' target (animateAxis64 target smooth)
  end.

Definition stopVideo (s : State) : State :=
  if videoMounted s && hasStream s then
    setRecognitionLoop false (setIsTracking false (setCameraActive false s))
  else s.

Definition toggleRayBanMode (s : State) : State :=
  setIsRayBanMode (negb (isRayBanMode s)) s.

(** What the poller and the user can make of a session. *)
Inductive Action : Type :=
| Poll (detection : option FaceDetectionResult)
| Frame
| StopVideo
| ToggleRayBanMode.

Definition perform (db : Z -> option Database.Conversation)
    (a : Action) (s : State) : State :=
  match a with
  | Poll detection => fst (fst (recognize db s detection))
  | Frame => animate s
  | StopVideo => stopVideo s
  | ToggleRayBanMode => toggleRayBanMode s
  end.

(** The sessions that [initializeAR] and later polls, frames and clicks can
    produce. *)
Inductive reachable (db : Z -> option Database.Conversation) : State -> Prop :=
| reachable_init people loaded camera :
    reachable db (initializeAR people loaded camera mounted)
| reachable_step a s :
    reachable db s -> reachable db (perform db a s).

(** The poller is running and both the video element and the models are
    there, so that a call of [recognize] reaches the detector. *)
Definition ready (s : State) : Prop :=
  recognitionLoop s = true /\ videoMounted s = true /\ modelsReady s = true.

(** The two assignments made for every detected face. *)
Definition tracked (pos : FacePosition) (s : State) : State :=
  setIsTracking true
    (setTargetPos {| x := Rmin (faceX pos + 8) 85;
                     y := Rmax (faceY pos - 5) 10 |} s).

(** The overlay shows the person whose id is [lastMatchedId], and shows
    nobody when there is none. *)
Definition consistent (s : State) : Prop :=
  match lastMatchedId s, detectedPerson s with
  | None, None => True
  | Some i, Some dp => Database.id (person dp) = Some i
  | _, _ => False
  end.

(** Every stored descriptor belongs to a person of the roster. *)
Definition rosterCovers (s : State) : Prop :=
  forall sp, In sp (storedDescriptors s) ->
             find (hasId (id sp)) (allPeople s) <> None.

(** The distance left between the overlay and its target, per axis. *)
Definition offsetX (s : State) : R := x (smoothPos s) - x (targetPos s).
Definition offsetY (s : State) : R := y (smoothPos s) - y (targetPos s).

(** [n] display frames in a row. *)
Definition frames (n : nat) (s : State) : State := Nat.iter n animate s.

(** The fetches recorded in a trace. *)
Fixpoint fetches (t : list event) : list Z :=
  match t with
  | [] => []
  | QueryLatestConversation i :: t' => i :: fetches t'
  | LogComparison _ _ :: t' => fetches t'
  end.

End ARViewer.

(** ** services/gemini.ts *)

Module Gemini.

Open Scope string_scope.

(** *** The string operations used by the summarizer (ASCII) *)

Definition lowerChar (c : ascii) : ascii :=
  let n := nat_of_ascii c in
  if (Nat.leb 65 n && Nat.leb n 90)%bool then ascii_of_nat (n + 32) else c.

Fixpoint toLowerCase (s : string) : string :=
  match s with
  | EmptyString => EmptyString
  | String c s' => String (lowerChar c) (toLowerCase s')
  end.

(** [s.includes(needle)] *)
Fixpoint includes (needle s : string) : bool :=
  if String.prefix needle s then true
  else match s with
       | EmptyString => false
       | String _ s' => includes needle s'
       end.

(** The class [\s], restricted to ASCII. *)
Definition isSpace (c : ascii) : bool :=
  let n := nat_of_ascii c in
  ((Nat.leb 9 n && Nat.leb n 13) || Nat.eqb n 32)%bool.

Fixpoint trimStart (s : string) : string :=
  match s with
  | String c s' => if isSpace c then trimStart s' else s
  | EmptyString => EmptyString
  end.

Fixpoint reverse (s : string) : string :=
  match s with
  | EmptyString => EmptyString
  | String c s' => reverse s' ++ String c EmptyString
  end.

Definition trim (s : string) : string :=
  reverse (trimStart (reverse (trimStart s))).

(** [s.split(/\s+/)]: [word] is the piece being read, in reverse, and
    [inGap] tells that the previous character was a separator. *)
Fixpoint splitFrom (inGap : bool) (word : string) (s : string) : list string :=
  match s with
  | EmptyString => [reverse word]
  | String c s' =>
      if isSpace c then
        if inGap then splitFrom true word s'
        else reverse word :: splitFrom true EmptyString s'
      else splitFrom false (String c word) s'
  end.

Definition splitSpaces (s : string) : list string :=
  splitFrom false EmptyString s.

Definition topicWords : list string :=
  ["hackathon"; "birthday"; "wedding"; "trip"; "vacation"; "work"; "project";
   "school"; "doctor"; "hospital"; "dinner"; "lunch"; "party"; "game"; "movie"].

Definition createFallbackSummary (text : string) : string :=
  let lowerText := toLowerCase text in
  match find (fun topic => includes topic lowerText) topicWords with
  | Some topic => "Talked about " ++ topic
  | None =>
      let words := firstn 8 (splitSpaces (trim text)) in
      if Nat.ltb (List.length words) 3 then "Had a conversation recently"
      else String.concat " " words ++ "..."
  end.

(** *** The response of the generative-language endpoint *)

(** A parsed JSON value; [None] of [option JSON] is the [undefined] of
    JavaScript. *)
#[local] Unset Elimination Schemes.
Inductive JSON : Type :=
| JNull
| JBool (b : bool)
| JNumber (n : R)
| JString (s : string)
| JArray (items : list JSON)
| JObject (fields : list (string * JSON)).
#[local] Set Elimination Schemes.

Fixpoint lookup (key : string) (fields : list (string * JSON)) : option JSON :=
  match fields with
  | [] => None
  | (k, v) :: rest => if String.eqb k key then Some v else lookup key rest
  end.

(** [v.key] for a [v] that is neither [null] nor [undefined]; none of the
    keys read by the summarizer is a property of a boxed primitive or of an
    array. *)
Definition getProp (v : JSON) (key : string) : option JSON :=
  match v with
  | JObject fields => lookup key fields
  | _ => None
  end.

(** [data.key] *)
Definition prop (data : JSON) (key : string) : outcome (option JSON) :=
  match data with
  | JNull => Thrown (TypeError "Cannot read properties of null")
  | _ => Returned (getProp data key)
  end.

(** [v?.key] *)
Definition optProp (v : option JSON) (key : string) : option JSON :=
  match v with
  | None | Some JNull => None
  | Some w => getProp w key
  end.

(** [v?.[0]] *)
Definition optFirst (v : option JSON) : option JSON :=
  match v with
  | None | Some JNull => None
  | Some (JArray items) => nth_error items 0
  | Some (JString (String c _)) => Some (JString (String c EmptyString))
  | Some (JObject fields) => lookup "0" fields
  | Some _ => None
  end.

(** [v?.trim()] *)
Definition optTrim (v : option JSON) : outcome (option string) :=
  match v with
  | None | Some JNull => Returned None
  | Some (JString s) => Returned (Some (trim s))
  | Some _ => Thrown (TypeError "trim is not a function")
  end.

Definition obind {A B} (m : outcome A) (k : A -> outcome B) : outcome B :=
  match m with
  | Returned a => k a
  | Thrown e => Thrown e
  end.

Notation "x <~ m ;; k" := (obind m (fun x => k))
  (at level 61, m at next level, right associativity).

(** [try { body } catch (error) { handler }] *)
Definition tryCatch {A} (body : outcome A) (handler : exn -> outcome A)
  : outcome A :=
  match body with
  | Returned a => Returned a
  | Thrown e => handler e
  end.

(** A string or [undefined] used as a condition. *)
Definition truthy (v : option string) : bool :=
  match v with
  | Some s => negb (String.eqb s EmptyString)
  | None => false
  end.

(** [a || b], the right operand being evaluated only when needed. *)
Definition orElse (a : outcome (option string))
    (b : outcome (option string)) : outcome (option string) :=
  v <~ a ;; if truthy v then Returned v else b.

(** The four places where a summary is looked for. *)
Definition extractSummary (data : JSON) : outcome (option string) :=
  orElse
    (candidates <~ prop data "candidates" ;;
     optTrim (optProp (optFirst (optProp (optProp (optFirst candidates)
                                                  "content") "parts")) "text"))
    (orElse
       (candidates <~ prop data "candidates" ;;
        optTrim (optProp (optFirst candidates) "text"))
       (orElse
          (text <~ prop data "text" ;; optTrim text)
          (response <~ prop data "response" ;; optTrim response))).

Definition doubleQuote : ascii := ascii_of_nat 34.
Definition singleQuote : ascii := ascii_of_nat 39.

Definition isQuote (c : ascii) : bool :=
  (Ascii.eqb c doubleQuote || Ascii.eqb c singleQuote)%bool.

Definition dropLeadingQuote (s : string) : string :=
  match s with
  | String c s' => if isQuote c then s' else s
  | EmptyString => s
  end.

(** [summary.replace(..)] with the pattern that matches one quote character
    at the start of the string or one at its end. *)
Definition stripQuotes (s : string) : string :=
  reverse (dropLeadingQuote (reverse (dropLeadingQuote s))).

Record Response : Type := {
  status : Z;
  json : outcome JSON
}.

(** [response.ok] *)
Definition ok (r : Response) : bool :=
  (Z.leb 200 (status r) && Z.leb (status r) 299)%bool.

(** What [await fetch(..)] does. *)
Inductive FetchResult : Type :=
| NetworkError (e : exn)
| Responded (r : Response).

Definition statusText (n : Z) : string :=
  DecimalString.NilZero.string_of_int (Z.to_int n).

(** [summarizeConversation]: [GEMINI_API_KEY] is the build-time setting
    (absent when not configured) and [network] is what the request made by
    this call comes back with.  The result is what the returned promise
    settles to: [Thrown] is a rejection. *)
Definition summarizeConversation (GEMINI_API_KEY : option string)
    (network : FetchResult) (text : string) : outcome string :=
  if negb (truthy GEMINI_API_KEY) then Returned (createFallbackSummary text)
  else
    tryCatch
      (response <~ match network with
                   | NetworkError e => Thrown e
                   | Responded r => Returned r
                   end ;;
       if Z.eqb (status response) 429
       then Returned (createFallbackSummary text)
       else if negb (ok response)
       then Thrown (Error ("Gemini API error: "
                             ++ statusText (status response)))
       else
         data <~ json response ;;
         summary <~ extractSummary data ;;
         match summary with
         | Some text' =>
             if String.eqb text' EmptyString
             then Returned (createFallbackSummary text)
             else Returned (trim (stripQuotes text'))
         | None => Returned (createFallbackSummary text)
         end)
      (fun error => Returned (createFallbackSummary text)).

(** [checkGeminiConnection]: [network] is what the probe request comes back
    with. *)
Definition checkGeminiConnection (GEMINI_API_KEY : option string)
    (network : FetchResult) : outcome bool :=
  if negb (truthy GEMINI_API_KEY) then Returned false
  else
    tryCatch
      (response <~ match network with
                   | NetworkError e => Thrown e
                   | Responded r => Returned r
                   end ;;
       Returned (ok response))
      (fun _ => Returned false).

(** *** The failures named by the error-handling design *)

Inductive Failure (key : option string) : FetchResult -> Prop :=
| MissingKey network :
    truthy key = false -> Failure key network
| FetchThrew e :
    Failure key (NetworkError e)
| RateLimited r :
    status r = 429%Z -> Failure key (Responded r)
| NotOk r :
    ok r = false -> Failure key (Responded r)
| BodyUnreadable r e :
    json r = Thrown e -> Failure key (Responded r)
| ExtractionThrew r data e :
    json r = Returned data -> extractSummary data = Thrown e ->
    Failure key (Responded r)
| NothingExtracted r data v :
    json r = Returned data -> extractSummary data = Returned v ->
    truthy v = false -> Failure key (Responded r).

End Gemini.

(** ** services/faceDetection.ts: detecting a face *)

Module Detector.

Import FaceDetection ARViewer.

(** [detection.detection.box], in pixels of the video frame. *)
Record Box : Type := { boxX : R; boxY : R; boxWidth : R; boxHeight : R }.

Record Video : Type := {
  videoWidth : R;
  videoHeight : R;
  clientWidth : R;
  clientHeight : R
}.

(** What the chain [detectSingleFace(..).withFaceLandmarks(..)
    .withFaceDescriptor()] of the face-api package resolves to. *)
Record Detection : Type := {
  box : Box;
  faceDescriptor : FaceDetection.descriptor
}.

(** [a || b] on numbers. *)
Definition orNumber (a b : R) : R := if Req_dec_T a 0 then b else a.

(** [detectFaceWithDescriptor]: [modelsLoaded] is the module's flag and
    [detector] what the face-api chain does on the current frame. *)
Definition detectFaceWithDescriptor (modelsLoaded : bool) (video : Video)
    (detector : outcome (option Detection)) : option FaceDetectionResult :=
  if negb modelsLoaded then None
  else
    match detector with
    | Returned (Some detection) =>
        let b := box detection in
        let vw := orNumber (videoWidth video) (clientWidth video) in
        let vh := orNumber (videoHeight video) (clientHeight video) in
        Some {| position :=
                  {| faceX := (boxX b + boxWidth b) / vw * 100;
                     faceY := boxY b / vh * 100;
                     width := boxWidth b / vw * 100;
                     height := boxHeight b / vh * 100 |};
                descriptor := Some (faceDescriptor detection) |}
    | Returned None => None
    | Thrown _ => None
    end.

(** The face box lies in a frame of positive size. *)
Definition inFrame (video : Video) (b : Box) : Prop :=
  let vw := orNumber (videoWidth video) (clientWidth video) in
  let vh := orNumber (videoHeight video) (clientHeight video) in
  0 < vw /\ 0 < vh /\
  0 <= boxX b /\ 0 <= boxWidth b /\ boxX b + boxWidth b <= vw /\
  0 <= boxY b /\ 0 <= boxHeight b /\ boxY b + boxHeight b <= vh.

End Detector.

(** ** pages/ARViewer.tsx: a session as a run of actions *)

Module Session.

Import ARViewer.


(** The overlay stays left of 85 % and below 10 % of the frame. *)
Definition inBounds (p : Point) : Prop := x p <= 85 /\ 10 <= y p.

(** A call of [recognize] does not reach the detector: the poller was not
    started or was stopped, or the models or the video element are
    missing. *)
Definition idle (s : State) : Prop :=
  recognitionLoop s = false \/ modelsReady s = false \/ videoMounted s = false.

End Session.

(** ** db/database.ts: the two tables and their helpers *)

Module Store.

Import Database.

(** The two tables of [DementiaDatabase], their rows in the order of the
    primary key, and the key generators of the [++id] schemas: a table gives
    a new row the next number and never reuses one.  A row of [people] is a
    [Database.Person]: as there, the photo, its URL and the timestamps are
    left out, so that [getAllPeople] and [getPersonById] return the rows as
    they are stored.  The calls of the Dexie package are read as follows:
    [add] appends a row under the next key and returns the key, [get] finds
    the row with a key, [delete] and [where(..).equals(..).delete()] remove
    the rows that match, [toArray] lists the rows in the order of the keys,
    and [count] counts them. *)
Record DB : Type := {
  people : list Person;
  conversations : list Conversation;
  nextPersonId : Z;
  nextConversationId : Z
}.

Definition addPerson (name relation : string)
    (faceDescriptor : option (list R)) (db : DB) : Z * DB :=
  let key := nextPersonId db in
  (key,
   {| people := people db ++ [ {| id := Some key; name := name;
                                  relation := relation;
                                  faceDescriptor := faceDescriptor |} ];
      conversations := conversations db;
      nextPersonId := (key + 1)%Z;
      nextConversationId := nextConversationId db |}).

Definition deletePerson (key : Z) (db : DB) : DB :=
  {| people := filter (fun p => negb (ARViewer.hasId key p)) (people db);
     conversations :=
       filter (fun c => negb (Z.eqb (personId c) key)) (conversations db);
     nextPersonId := nextPersonId db;
     nextConversationId := nextConversationId db |}.

Definition getAllPeople (db : DB) : list Person := people db.

Definition getPersonById (key : Z) (db : DB) : option Person :=
  find (ARViewer.hasId key) (people db).

(** [date] and [createdAt] are the two readings of the clock. *)
Definition addConversation (person : Z) (rawText summary : string)
    (date createdAt : Z) (db : DB) : Z * DB :=
  let key := nextConversationId db in
  (key,
   {| people := people db;
      conversations :=
        conversations db
          ++ [ {| conversationId := Some key; personId := person;
                  rawText := rawText; summary := summary;
                  date := date; createdAt := createdAt |} ];
      nextPersonId := nextPersonId db;
      nextConversationId := (key + 1)%Z |}).

(** A stable sort in descending order of [key], as [Array.prototype.sort]
    with a comparator that puts the greater key first. *)
Fixpoint insertDesc (key : Conversation -> Z) (c : Conversation)
    (l : list Conversation) : list Conversation :=
  match l with
  | [] => [c]
  | y :: l' =>
      if Z.ltb (key c) (key y) then y :: insertDesc key c l'
      else c :: y :: l'
  end.

Fixpoint sortDesc (key : Conversation -> Z) (l : list Conversation)
  : list Conversation :=
  match l with
  | [] => []
  | c :: l' => insertDesc key c (sortDesc key l')
  end.

(** [where('personId').equals(..).reverse().sortBy('date')]: the rows of
    the person, taken from the last key to the first, sorted by date with
    the latest first. *)
Definition getConversationsForPerson (person : Z) (db : DB)
  : list Conversation :=
  sortDesc date
    (rev (filter (fun c => Z.eqb (personId c) person) (conversations db))).

Definition getLatestConversation (person : Z) (db : DB)
  : option Conversation :=
  nth_error (getConversationsForPerson person db) 0.

Definition hasConversationId (key : Z) (c : Conversation) : bool :=
  match conversationId c with
  | Some i => Z.eqb i key
  | None => false
  end.

Definition deleteConversation (key : Z) (db : DB) : DB :=
  {| people := people db;
     conversations :=
       filter (fun c => negb (hasConversationId key c)) (conversations db);
     nextPersonId := nextPersonId db;
     nextConversationId := nextConversationId db |}.

Record Stats : Type := {
  totalPeople : nat;
  totalConversations : nat;
  recentConversations : list Conversation
}.

(** [orderBy('createdAt').reverse().limit(5)]: the index is walked from its
    end. *)
Definition getStats (db : DB) : Stats :=
  {| totalPeople := length (people db);
     totalConversations := length (conversations db);
     recentConversations :=
       firstn 5 (sortDesc createdAt (rev (conversations db))) |}.

(** Every key in use was given out by the generator of its table, and no key
    is used twice. *)
Definition wellFormed (db : DB) : Prop :=
  (0 < nextPersonId db)%Z /\ (0 < nextConversationId db)%Z /\
  (forall p, In p (people db) ->
             exists i, id p = Some i /\ (0 < i < nextPersonId db)%Z) /\
  NoDup (map id (people db)) /\
  (forall c, In c (conversations db) ->
             exists i, conversationId c = Some i /\
                       (0 < i < nextConversationId db)%Z) /\
  NoDup (map conversationId (conversations db)).

Definition empty : DB :=
  {| people := []; conversations := [];
     nextPersonId := 1; nextConversationId := 1 |}.

(** The row written by [addConversation]. *)
Definition newConversation (key person : Z) (rawText summary : string)
    (date createdAt : Z) : Conversation :=
  {| conversationId := Some key; personId := person; rawText := rawText;
     summary := summary; date := date; createdAt := createdAt |}.

(** Later rows first. *)
Definition latestFirst (key : Conversation -> Z) (a b : Conversation) : Prop :=
  (key b <= key a)%Z.

(** The operations of the store. *)
Inductive Operation : Type :=
| AddPerson (name relation : string) (faceDescriptor : option (list R))
| DeletePerson (key : Z)
| AddConversation (person : Z) (rawText summary : string) (date createdAt : Z)
| DeleteConversation (key : Z).

Definition apply (op : Operation) (db : DB) : DB :=
  match op with
  | AddPerson name relation faceDescriptor =>
      snd (addPerson name relation faceDescriptor db)
  | DeletePerson key => deletePerson key db
  | AddConversation person rawText summary date createdAt =>
      snd (addConversation person rawText summary date createdAt db)
  | DeleteConversation key => deleteConversation key db
  end.

End Store.

(** ** pages/People.tsx: the list of people *)

Module PeoplePage.

Import Database.

(** [person.name.toLowerCase().includes(searchQuery.toLowerCase()) ||
     person.relation.toLowerCase().includes(searchQuery.toLowerCase())] *)
Definition matchesQuery (searchQuery : string) (person : Person) : bool :=
  Gemini.includes (Gemini.toLowerCase searchQuery)
                  (Gemini.toLowerCase (name person))
  || Gemini.includes (Gemini.toLowerCase searchQuery)
                     (Gemini.toLowerCase (relation person)).

Definition filteredPeople (people : list Person) (searchQuery : string)
  : list Person :=
  filter (matchesQuery searchQuery) people.

(** The form of the dialog: [photoFile] tells whether a photo was chosen and
    [faceDescriptor] is what [extractFaceDescriptor] found in it, if
    anything. *)
Record Form : Type := {
  formName : string;
  formRelation : string;
  photoFile : bool;
  faceDescriptor : option (list R)
}.

(** What [handleSubmit] does to the store. *)
Definition handleSubmit (form : Form) (db : Store.DB) : Store.DB :=
  if String.eqb (formName form) EmptyString
     || String.eqb (formRelation form) EmptyString
     || negb (photoFile form)
  then db
  else snd (Store.addPerson (formName form) (formRelation form)
              (faceDescriptor form) db).

Definition handleDelete (key : Z) (db : Store.DB) : Store.DB :=
  Store.deletePerson key db.

End PeoplePage.

(** ** pages/PersonDetail.tsx: logging a conversation *)

Module PersonDetail.

Import Database.

Record ConversationForm : Type := {
  convoText : string;
  manualSummary : string;
  useAI : bool
}.

Definition blank (s : string) : bool := String.eqb (Gemini.trim s) EmptyString.

(** [!person?.id] *)
Definition personKey (person : option Person) : option Z :=
  match person with
  | Some p =>
      match id p with
      | Some i => if Z.eqb i 0 then None else Some i
      | None => None
      end
  | None => None
  end.

(** What [handleAddConversation] does to the store: [key] and [network] are
    the setting and the reply used by [summarizeConversation], [date] and
    [createdAt] the readings of the clock. *)
Definition handleAddConversation (form : ConversationForm)
    (person : option Person) (key : option string)
    (network : Gemini.FetchResult) (date createdAt : Z) (db : Store.DB)
  : Store.DB :=
  match personKey person with
  | None => db
  | Some i =>
      if blank (convoText form) then db
      else if negb (useAI form) && blank (manualSummary form) then db
      else
        let summary :=
          if useAI form
          then Gemini.summarizeConversation key network (convoText form)
          else Returned (Gemini.trim (manualSummary form)) in
        match summary with
        | Returned text =>
            snd (Store.addConversation i (convoText form) text
                   date createdAt db)
        | Thrown _ => db
        end
  end.

End PersonDetail.

(** ** A session used in the examples *)

Module Scenario.

Import FaceDetection ARViewer.

Definition alice : Database.Person :=
  {| Database.id := Some 1%Z; Database.name := "Alice";
     Database.relation := "Daughter"; Database.faceDescriptor := Some [0] |}.

Definition noConversations : Z -> option Database.Conversation :=
  fun _ => None.

(** The session after [initializeAR] with [alice] as the only person. *)
Definition session : State := initializeAR [alice] true Playing mounted.

Definition at_ (pos : FacePosition) (d : FaceDetection.descriptor)
  : option FaceDetectionResult :=
  Some {| position := pos; descriptor := Some d |}.

Definition centre : FacePosition :=
  {| faceX := 40; faceY := 50; width := 20; height := 30 |}.

(** [alice] is seen, then the face is lost for one cycle. *)
Definition recognized : State :=
  perform noConversations (Poll (at_ centre [0])) session.

Definition dropout : State :=
  perform noConversations (Poll None) recognized.

(** A roster whose only stored descriptor has two coordinates. *)
Definition bob : Database.Person :=
  {| Database.id := Some 2%Z; Database.name := "Bob";
     Database.relation := "Neighbour";
     Database.faceDescriptor := Some [0; 0] |}.

Definition mismatched : State := initializeAR [bob] true Playing mounted.


(** A 640 x 480 frame and a face found in it. *)
Definition frame640 : Detector.Video :=
  {| Detector.videoWidth := 640; Detector.videoHeight := 480;
     Detector.clientWidth := 0; Detector.clientHeight := 0 |}.

Definition foundAlice : Detector.Detection :=
  {| Detector.box :=
       {| Detector.boxX := 100; Detector.boxY := 120;
          Detector.boxWidth := 200; Detector.boxHeight := 240 |};
     Detector.faceDescriptor := [0] |}.

(** A session started with nobody in the store. *)
Definition nobody : State := initializeAR [] true Playing mounted.

(** The form of the people page filled in for Alice, with a face found in
    the photo. *)
Definition aliceForm : PeoplePage.Form :=
  {| PeoplePage.formName := "Alice"; PeoplePage.formRelation := "Daughter";
     PeoplePage.photoFile := true; PeoplePage.faceDescriptor := Some [0] |}.

(** Two ways of logging a lunch. *)
Definition lunchTyped : PersonDetail.ConversationForm :=
  {| PersonDetail.convoText := "We had lunch";
     PersonDetail.manualSummary := " Lunch together ";
     PersonDetail.useAI := false |}.

Definition lunchSummarized : PersonDetail.ConversationForm :=
  {| PersonDetail.convoText := "We had lunch";
     PersonDetail.manualSummary := EmptyString;
     PersonDetail.useAI := true |}.

(** A reply of the endpoint whose text is wrapped in quotes and followed by
    a space. *)
Definition rosesReply : Gemini.JSON :=
  Gemini.JObject
    [("candidates"%string,
      Gemini.JArray
        [Gemini.JObject
           [("content"%string,
             Gemini.JObject
               [("parts"%string,
                 Gemini.JArray
                   [Gemini.JObject
                      [("text"%string,
                        Gemini.JString
                          (String Gemini.doubleQuote
                             ("Talked about roses"
                                ++ String Gemini.doubleQuote " ")))]])])]])].

End Scenario.

(** * Properties *)

(** ** The matcher *)

Section MatcherFacts.

Import FaceDetection.

Lemma fold_squared_diffs (a b arr2 : descriptor) (i : nat) (acc : R) :
  length a = length b ->
  (forall k, (k < length b)%nat -> nth (i + k) arr2 0 = nth k b 0) ->
  fold_left (fun res diff => res + diff ^ 2)
    (mapi_from (fun val j => val - nth j arr2 0) i a) acc
  = acc + sumSquaredDiff a b.
Proof.
  revert b i acc.
  induction a as [|u a IH]; intros [|v b] i acc Hlen Hnth;
    simpl in Hlen; try discriminate.
  - simpl. lra.
  - cbn [mapi_from fold_left sumSquaredDiff].
    rewrite (IH b (S i)).
    + specialize (Hnth 0%nat). rewrite Nat.add_0_r in Hnth.
      rewrite Hnth by (simpl; lia). simpl. lra.
    + now injection Hlen.
    + intros k Hk. specialize (Hnth (S k)).
      rewrite Nat.add_succ_r in Hnth. simpl in Hnth |- *.
      apply Hnth. lia.
Qed.

Lemma euclideanDistance_same_length (a b : descriptor) :
  length a = length b -> euclideanDistance a b = Returned (distance a b).
Proof.
  intros Hlen. unfold euclideanDistance, mapi, distance.
  rewrite Hlen, Nat.eqb_refl.
  rewrite (fold_squared_diffs a b b 0 0 Hlen) by reflexivity.
  now rewrite Rplus_0_l.
Qed.

Lemma euclideanDistance_mismatch (a b : descriptor) :
  length a <> length b -> euclideanDistance a b = Thrown DimensionMismatch.
Proof.
  intros Hlen. unfold euclideanDistance.
  now apply Nat.eqb_neq in Hlen as ->.
Qed.

Lemma compareFaces_same_length (q : descriptor) (p : StoredPerson) :
  length (descriptor_of p) = length q ->
  compareFaces q (descriptor_of p) = Returned (score q p).
Proof.
  intros Hlen. unfold compareFaces, score.
  now rewrite euclideanDistance_same_length.
Qed.

Lemma compareFaces_mismatch (q d : descriptor) :
  length d <> length q -> compareFaces q d = Thrown DimensionMismatch.
Proof.
  intros Hlen. unfold compareFaces.
  rewrite euclideanDistance_mismatch; auto.
Qed.


Lemma sumSquaredDiff_diag (a : descriptor) : sumSquaredDiff a a = 0.
Proof. induction a as [|u a IH]; simpl; [|rewrite IH]; lra. Qed.

Lemma distance_nonneg (a b : descriptor) : 0 <= distance a b.
Proof. apply sqrt_pos. Qed.

Lemma distance_diag (a : descriptor) : distance a a = 0.
Proof. unfold distance. rewrite sumSquaredDiff_diag. apply sqrt_0. Qed.

Lemma score_bounds (q : descriptor) (p : StoredPerson) : 0 <= score q p <= 1.
Proof.
  unfold score. pose proof (distance_nonneg q (descriptor_of p)).
  split; [apply Rmax_l | apply Rmax_lub; lra].
Qed.

Lemma scanPeople_same_dimension (q : descriptor) (l : list StoredPerson) :
  sameDimension q l ->
  forall best,
    scanPeople q l best
    = (map (logOf q) l, Returned (fold_left (pick q) l best)).
Proof.
  induction 1 as [|p l Hp Hl IH]; intros best; [reflexivity|].
  cbn [scanPeople]. rewrite (compareFaces_same_length q p Hp).
  unfold lift, emit. cbn [bind]. rewrite IH. reflexivity.
Qed.

Lemma scanPeople_mismatch (q : descriptor) (l : list StoredPerson) :
  Exists (fun p => length (descriptor_of p) <> length q) l ->
  forall best, result (scanPeople q l best) = Thrown DimensionMismatch.
Proof.
  induction l as [|p l IH]; intros Hex best.
  - inversion Hex.
  - cbn [scanPeople].
    destruct (Nat.eq_dec (length (descriptor_of p)) (length q)) as [Heq|Hne].
    + rewrite (compareFaces_same_length q p Heq).
      unfold lift, emit. cbn [bind].
      inversion Hex as [? ? Hhd|? ? Htl]; subst; [contradiction|].
      specialize (IH Htl (pick q best p)). unfold pick in IH.
      destruct (scanPeople q l _) as [t r]. exact IH.
    + rewrite (compareFaces_mismatch q _ Hne). reflexivity.
Qed.

Lemma mismatch_or_same_dimension (q : descriptor) (l : list StoredPerson) :
  sameDimension q l \/
  Exists (fun p => length (descriptor_of p) <> length q) l.
Proof.
  induction l as [|p l [IH|IH]].
  - left. constructor.
  - destruct (Nat.eq_dec (length (descriptor_of p)) (length q)).
    + left. now constructor.
    + right. now constructor.
  - right. now apply Exists_cons_tl.
Qed.

(** What the scan leaves in [bestMatch]: either the initial value, when no
    candidate beats it, or the first candidate with the highest score. *)
Lemma fold_pick_spec (q : descriptor) (l : list StoredPerson) :
  forall best,
    let r := fold_left (pick q) l best in
    (r = best /\ forall p, In p l -> score q p <= similarity best) \/
    (exists l1 p l2,
        l = l1 ++ p :: l2 /\
        r = {| personId := id p; similarity := score q p |} /\
        similarity best < score q p /\
        (forall p', In p' l1 -> score q p' < score q p) /\
        (forall p', In p' l2 -> score q p' <= score q p)).
Proof.
  induction l as [|p l IH]; intros best; cbn zeta.
  - left. split; [reflexivity | intros ? []].
  - cbn [fold_left].
    assert (Hb : (similarity best < score q p /\
                  pick q best p
                  = {| personId := id p; similarity := score q p |})
                 \/ (score q p <= similarity best /\ pick q best p = best)).
    { unfold pick. destruct (Rgt_dec (score q p) (similarity best));
        [left | right]; split; auto; lra. }
    specialize (IH (pick q best p)). cbn zeta in IH.
    destruct Hb as [[Hgt Hb]|[Hle Hb]]; rewrite Hb in IH |- *.
    + right.
      destruct IH as [[Hr Hall]|(l1 & p' & l2 & Hl & Hr & Hlt & H1 & H2)];
        cbn [similarity] in *.
      * exists [], p, l. split; [reflexivity|]. split; [exact Hr|].
        split; [exact Hgt|]. split; [intros ? []| exact Hall].
      * exists (p :: l1), p', l2. split; [now rewrite Hl|]. split; [exact Hr|].
        split; [lra|]. split; [|exact H2].
        intros p0 [<-|Hin]; [lra | auto].
    + destruct IH as [[Hr Hall]|(l1 & p' & l2 & Hl & Hr & Hlt & H1 & H2)].
      * left. split; [exact Hr|]. intros p0 [<-|Hin]; [lra | auto].
      * right. exists (p :: l1), p', l2. split; [now rewrite Hl|].
        split; [exact Hr|]. split; [exact Hlt|]. split; [|exact H2].
        intros p0 [<-|Hin]; [lra | auto].
Qed.


Lemma findBestMatch_same_dimension (q : descriptor) (l : list StoredPerson) :
  sameDimension q l -> l <> [] ->
  findBestMatch q l
  = (map (logOf q) l,
     Returned (aboveThreshold (fold_left (pick q) l sentinel))).
Proof.
  intros Hdim Hne. destruct l as [|p l]; [contradiction|].
  unfold findBestMatch.
  rewrite (scanPeople_same_dimension q (p :: l) Hdim). cbn [bind].
  unfold aboveThreshold, sentinel.
  destruct (Rge_dec _ MATCH_THRESHOLD); unfold ret; now rewrite app_nil_r.
Qed.

Lemma findBestMatch_mismatch (q : descriptor) (l : list StoredPerson) :
  Exists (fun p => length (descriptor_of p) <> length q) l ->
  result (findBestMatch q l) = Thrown DimensionMismatch.
Proof.
  intros Hex. destruct l as [|p l]; [inversion Hex|].
  unfold findBestMatch.
  pose proof (scanPeople_mismatch q (p :: l) Hex
                {| personId := (-1)%Z; similarity := 0 |}) as Hscan.
  destruct (scanPeople q (p :: l) _) as [t r]. cbn [result snd] in Hscan.
  now subst r.
Qed.

(** A returned match is the first candidate with the highest score, and
    that score reaches the threshold. *)
Lemma findBestMatch_returned (q : descriptor) (l : list StoredPerson)
    (m : Match) :
  result (findBestMatch q l) = Returned (Some m) ->
  sameDimension q l /\
  MATCH_THRESHOLD <= similarity m /\
  exists l1 p l2,
    l = l1 ++ p :: l2 /\
    m = {| personId := id p; similarity := score q p |} /\
    (forall p', In p' l1 -> score q p' < score q p) /\
    (forall p', In p' l2 -> score q p' <= score q p).
Proof.
  intros Hres.
  destruct (mismatch_or_same_dimension q l) as [Hdim|Hex].
  2:{ rewrite (findBestMatch_mismatch q l Hex) in Hres. discriminate. }
  split; [exact Hdim|].
  destruct l as [|p0 l]; [discriminate|].
  rewrite (findBestMatch_same_dimension q (p0 :: l) Hdim) in Hres
    by discriminate.
  cbn [result snd] in Hres. unfold aboveThreshold in Hres.
  destruct (Rge_dec _ MATCH_THRESHOLD) as [Hge|Hlt]; [|discriminate].
  injection Hres as Hm.
  destruct (fold_pick_spec q (p0 :: l) sentinel)
    as [[Hr Hall]|(l1 & p & l2 & Hl & Hr & Hgt & H1 & H2)].
  - rewrite Hr in Hge. unfold sentinel, MATCH_THRESHOLD in Hge.
    cbn [similarity] in Hge. lra.
  - rewrite <- Hm. split; [apply Rge_le; exact Hge|].
    exists l1, p, l2. repeat split; assumption.
Qed.

End MatcherFacts.


Section MatcherClaims.

Import FaceDetection.

Lemma score_1d (a b : R) (i : Z) :
  score [a] {| id := i; descriptor_of := [b] |} = Rmax 0 (1 - Rabs (a - b)).
Proof.
  unfold score, distance. cbn [descriptor_of sumSquaredDiff].
  replace ((a - b) ^ 2 + 0) with (Rsqr (a - b)) by (unfold Rsqr; ring).
  now rewrite sqrt_Rsqr_abs.
Qed.

Lemma score_self (e : descriptor) (i : Z) :
  score e {| id := i; descriptor_of := e |} = 1.
Proof.
  unfold score. cbn [descriptor_of]. rewrite distance_diag.
  rewrite Rminus_0_r. apply Rmax_right. lra.
Qed.






Lemma findBestMatch_self (e : descriptor) (i : Z) :
  result (findBestMatch e [ {| id := i; descriptor_of := e |} ])
  = Returned (Some {| personId := i; similarity := 1 |}).
Proof.
  rewrite findBestMatch_same_dimension;
    [|repeat constructor|discriminate].
  cbn [result snd fold_left]. unfold pick. rewrite score_self.
  cbn [sentinel similarity id].
  destruct (Rgt_dec 1 0) as [_|Hn]; [|exfalso; lra].
  unfold aboveThreshold, MATCH_THRESHOLD. cbn [similarity].
  destruct (Rge_dec 1 0.4) as [_|Hn]; [reflexivity|exfalso; lra].
Qed.

(** C2. The similarity of two embeddings of one length is
    [max(0, 1 - distance)] for the Euclidean distance (embeddings of
    different lengths have no similarity: the comparison throws); hence
    matching an embedding against itself as the only candidate returns that
    candidate with similarity exactly 1. *)
Theorem compareFaces_is_similarity :
  (forall d1 d2 : descriptor,
      compareFaces d1 d2
      = if Nat.eqb (length d1) (length d2)
        then Returned (Rmax 0 (1 - distance d1 d2))
        else Thrown DimensionMismatch) /\
  (forall (e : descriptor) (i : Z),
      result (findBestMatch e [ {| id := i; descriptor_of := e |} ])
      = Returned (Some {| personId := i; similarity := 1 |})).
Proof.
  split.
  - intros d1 d2. destruct (Nat.eqb_spec (length d1) (length d2)) as [Heq|Hne].
    + unfold compareFaces. now rewrite euclideanDistance_same_length.
    + apply compareFaces_mismatch. congruence.
  - apply findBestMatch_self.
Qed.



(** C10. A match returned by [findBestMatch] has a similarity between 0.4
    and 1 and is built from a candidate of the list (its id and its score);
    it is never the initial value of the running best. *)
Theorem findBestMatch_sound (q : descriptor) (people : list StoredPerson)
    (m : Match) :
  result (findBestMatch q people) = Returned (Some m) ->
  MATCH_THRESHOLD <= similarity m <= 1 /\
  (exists p, In p people /\ personId m = id p /\ similarity m = score q p) /\
  m <> sentinel.
Proof.
  intros Hres.
  destruct (findBestMatch_returned q people m Hres)
    as (_ & Hge & l1 & p & l2 & Hl & Hm & _ & _).
  split; [split; [exact Hge|]|split].
  - rewrite Hm. cbn [similarity]. apply score_bounds.
  - exists p. rewrite Hm, Hl. cbn [personId similarity].
    split; [apply in_or_app; right; now left | auto].
  - intros ->. unfold MATCH_THRESHOLD in Hge. cbn [sentinel similarity] in Hge.
    lra.
Qed.

Lemma findBestMatch_sound_witness :
  MATCH_THRESHOLD <= 1 <= 1 /\
  (exists p, In p [ {| id := 7; descriptor_of := [1 / 2] |} ] /\
             7%Z = id p /\ 1 = score [1 / 2] p) /\
  {| personId := 7; similarity := 1 |} <> sentinel.
Proof.
  apply (findBestMatch_sound [1 / 2] [ {| id := 7; descriptor_of := [1 / 2] |} ]
           {| personId := 7; similarity := 1 |}).
  apply findBestMatch_self.
Defined.

End MatcherClaims.

(** ** The recognition state machine *)

Section RecognizeFacts.

Import FaceDetection ARViewer.

Variable db : Z -> option Database.Conversation.

Lemma recognize_no_face (s : State) :
  ready s ->
  recognize db s None
  = (setRecognitionStatus "Scanning..." (setIsTracking false s), [],
     Rescheduled 200).
Proof.
  intros (Hloop & Hvideo & Hmodels). unfold recognize.
  now rewrite Hloop, Hvideo, Hmodels.
Qed.

Lemma fetches_scanPeople (q : FaceDetection.descriptor)
    (l : list StoredPerson) :
  forall best, fetches (trace (scanPeople q l best)) = [].
Proof.
  induction l as [|p l IH]; intros best; [reflexivity|].
  cbn [scanPeople].
  destruct (compareFaces q (descriptor_of p)) as [v|e]; [|reflexivity].
  unfold lift, emit. cbn [bind].
  specialize (IH (if Rgt_dec v (similarity best)
                  then {| personId := id p; similarity := v |} else best)).
  destruct (scanPeople q l _) as [t r]. exact IH.
Qed.

Lemma fetches_findBestMatch (q : FaceDetection.descriptor)
    (l : list StoredPerson) :
  fetches (trace (findBestMatch q l)) = [].
Proof.
  destruct l as [|p l]; [reflexivity|]. unfold findBestMatch.
  pose proof (fetches_scanPeople q (p :: l)
                {| personId := (-1)%Z; similarity := 0 |}) as Hscan.
  destruct (scanPeople q (p :: l) _) as [t [best|e]]; cbn [bind];
    [|exact Hscan].
  cbn [trace fst] in Hscan.
  destruct (Rge_dec _ MATCH_THRESHOLD); unfold ret; cbn [trace fst];
    now rewrite app_nil_r.
Qed.

Lemma fetches_app (t1 t2 : list event) :
  fetches (t1 ++ t2) = (fetches t1 ++ fetches t2)%list.
Proof.
  induction t1 as [|[i v|i] t1 IH]; cbn; [reflexivity|exact IH|now rewrite IH].
Qed.

Lemma recognize_thrown (s : State) pos d e :
  ready s -> storedDescriptors s <> [] ->
  result (findBestMatch d (storedDescriptors s)) = Thrown e ->
  recognize db s (Some {| position := pos; descriptor := Some d |})
  = (tracked pos s, trace (findBestMatch d (storedDescriptors s)), Rejected e).
Proof.
  intros (Hloop & Hvideo & Hmodels) Hne Hfind. unfold recognize.
  rewrite Hloop, Hvideo, Hmodels. cbn.
  destruct (storedDescriptors s) as [|p l]; [contradiction|].
  destruct (findBestMatch d (p :: l)) as [log r]. cbn in Hfind |- *.
  now subst r.
Qed.

Lemma recognize_unknown (s : State) pos d :
  ready s -> storedDescriptors s <> [] ->
  result (findBestMatch d (storedDescriptors s)) = Returned None ->
  recognize db s (Some {| position := pos; descriptor := Some d |})
  = (match lastMatchedId s with
     | Some _ =>
         setDetectedPerson None
           (setLastMatchedId None
              (setRecognitionStatus "Unknown face" (tracked pos s)))
     | None => setRecognitionStatus "Unknown face" (tracked pos s)
     end, trace (findBestMatch d (storedDescriptors s)), Rescheduled 200).
Proof.
  intros (Hloop & Hvideo & Hmodels) Hne Hfind. unfold recognize.
  rewrite Hloop, Hvideo, Hmodels. cbn.
  destruct (storedDescriptors s) as [|p l]; [contradiction|].
  destruct (findBestMatch d (p :: l)) as [log r]. cbn in Hfind |- *.
  subst r. now destruct (lastMatchedId s).
Qed.

Lemma recognize_same (s : State) pos d m :
  ready s -> storedDescriptors s <> [] ->
  result (findBestMatch d (storedDescriptors s)) = Returned (Some m) ->
  lastMatchedId s = Some (personId m) ->
  recognize db s (Some {| position := pos; descriptor := Some d |})
  = (tracked pos s, trace (findBestMatch d (storedDescriptors s)),
     Rescheduled 200).
Proof.
  intros (Hloop & Hvideo & Hmodels) Hne Hfind Hlast. unfold recognize.
  rewrite Hloop, Hvideo, Hmodels. cbn.
  destruct (storedDescriptors s) as [|p l]; [contradiction|].
  destruct (findBestMatch d (p :: l)) as [log r]. cbn in Hfind |- *.
  subst r. rewrite Hlast. cbn. now rewrite Z.eqb_refl.
Qed.

Lemma recognize_new (s : State) pos d m matchedPerson :
  ready s -> storedDescriptors s <> [] ->
  result (findBestMatch d (storedDescriptors s)) = Returned (Some m) ->
  lastMatchedId s <> Some (personId m) ->
  find (hasId (personId m)) (allPeople s) = Some matchedPerson ->
  recognize db s (Some {| position := pos; descriptor := Some d |})
  = (setRecognitionStatus ("Recognized (" ++ percent (similarity m) ++ "%)")
       (setDetectedPerson
          (Some {| person := matchedPerson;
                   lastConvo := Some (summaryOrDefault (db (personId m))) |})
          (setLastMatchedId (Some (personId m)) (tracked pos s))),
     (trace (findBestMatch d (storedDescriptors s))
        ++ [QueryLatestConversation (personId m)])%list,
     Rescheduled 200).
Proof.
  intros (Hloop & Hvideo & Hmodels) Hne Hfind Hlast Hperson. unfold recognize.
  rewrite Hloop, Hvideo, Hmodels. cbn.
  destruct (storedDescriptors s) as [|p l]; [contradiction|].
  destruct (findBestMatch d (p :: l)) as [log r]. cbn in Hfind |- *.
  subst r.
  assert (Hsame : sameId (personId m) (lastMatchedId s) = false).
  { unfold sameId. destruct (lastMatchedId s) as [i|]; [|reflexivity].
    apply Z.eqb_neq. congruence. }
  rewrite Hsame. cbn. rewrite Hperson.
  apply find_some in Hperson as [_ Hid]. unfold hasId in Hid.
  destruct (Database.id matchedPerson) as [i|]; [|discriminate].
  apply Z.eqb_eq in Hid. now subst i.
Qed.

(** *** The invariant of a session *)

Lemma invariant_fields (s s' : State) :
  lastMatchedId s' = lastMatchedId s ->
  detectedPerson s' = detectedPerson s ->
  storedDescriptors s' = storedDescriptors s ->
  allPeople s' = allPeople s ->
  consistent s /\ rosterCovers s -> consistent s' /\ rosterCovers s'.
Proof.
  unfold consistent, rosterCovers. intros -> -> -> ->. auto.
Qed.

Lemma buildDescriptors_covered (people : list Database.Person) sp :
  In sp (buildDescriptors people) -> find (hasId (id sp)) people <> None.
Proof.
  induction people as [|p people IH]; cbn [buildDescriptors find];
    [intros []|].
  intros Hin.
  assert (Htail : In sp (buildDescriptors people) ->
                  (if hasId (id sp) p then Some p
                   else find (hasId (id sp)) people) <> None).
  { intros H. destruct (hasId (id sp) p); [discriminate | auto]. }
  destruct (Database.id p) as [i|] eqn:Hid; [|auto].
  destruct (Database.faceDescriptor p) as [d|]; [|auto].
  destruct (Z.eqb i 0); [auto|].
  destruct Hin as [<-|Hin]; [|auto].
  unfold hasId. cbn [id]. rewrite Hid, Z.eqb_refl. discriminate.
Qed.

Lemma initializeAR_invariant people loaded camera :
  consistent (initializeAR people loaded camera mounted) /\
  rosterCovers (initializeAR people loaded camera mounted).
Proof.
  split.
  - destruct camera; exact I.
  - intros sp Hin.
    assert (Hs : storedDescriptors (initializeAR people loaded camera mounted)
                 = buildDescriptors people) by (destruct camera; reflexivity).
    assert (Ha : allPeople (initializeAR people loaded camera mounted) = people)
      by (destruct camera; reflexivity).
    rewrite Hs in Hin. rewrite Ha. now apply buildDescriptors_covered.
Qed.

Lemma recognize_invariant (s : State) detection :
  consistent s /\ rosterCovers s ->
  consistent (fst (fst (recognize db s detection))) /\
  rosterCovers (fst (fst (recognize db s detection))).
Proof.
  intros Hinv. unfold recognize.
  destruct (negb (recognitionLoop s)); [exact Hinv|].
  destruct (negb (videoMounted s) || negb (modelsReady s)); [exact Hinv|].
  destruct detection as [[pos [d|]]|]; cbn -[findBestMatch];
    [|destruct (storedDescriptors s) eqn:Hs; cbn -[findBestMatch];
      apply (invariant_fields s); auto
     |apply (invariant_fields s); auto].
  destruct (storedDescriptors s) as [|p l] eqn:Hs; cbn -[findBestMatch];
    [apply (invariant_fields s); auto|].
  destruct (findBestMatch d (p :: l)) as [log [[m|]|e]] eqn:Hfind;
    [| |cbn -[findBestMatch]; apply (invariant_fields s); auto].
  - destruct (sameId (personId m) (lastMatchedId s)); cbn -[findBestMatch];
      [apply (invariant_fields s); auto|].
    assert (Hres : result (findBestMatch d (p :: l)) = Returned (Some m))
      by now rewrite Hfind.
    destruct (findBestMatch_returned d (p :: l) m Hres)
      as (_ & _ & l1 & sp & l2 & Hl & Hm & _).
    pose proof (proj2 Hinv) as Hcover.
    assert (Hin : In sp (storedDescriptors s)).
    { rewrite Hs, Hl. apply in_or_app. right. now left. }
    specialize (Hcover sp Hin).
    replace (id sp) with (personId m) in Hcover by now rewrite Hm.
    destruct (find (hasId (personId m)) (allPeople s)) as [mp|] eqn:Hp;
      [|contradiction].
    cbn -[findBestMatch]. split.
    + unfold consistent. cbn -[findBestMatch].
      apply find_some in Hp as [_ Hid]. unfold hasId in Hid.
      destruct (Database.id mp) as [i|]; [|discriminate].
      apply Z.eqb_eq in Hid. now subst i.
    + intros sp' Hin'. cbn -[findBestMatch] in Hin' |- *.
      apply (proj2 Hinv). exact Hin'.
  - cbn -[findBestMatch]. destruct Hinv as [Hc Hcover].
    destruct (lastMatchedId s) eqn:Hlast.
    + split; [exact I | exact Hcover].
    + split; [|exact Hcover]. unfold consistent in Hc |- *.
      cbn -[findBestMatch].
      now rewrite Hlast in Hc |- *.
Qed.

Lemma perform_invariant (a : Action) (s : State) :
  consistent s /\ rosterCovers s ->
  consistent (perform db a s) /\ rosterCovers (perform db a s).
Proof.
  intros Hinv. destruct a as [detection| | |]; cbn [perform].
  - now apply recognize_invariant.
  - apply (invariant_fields s); auto.
  - unfold stopVideo. destruct (videoMounted s && hasStream s);
      [apply (invariant_fields s); auto | exact Hinv].
  - apply (invariant_fields s); auto.
Qed.

Lemma reachable_invariant (s : State) :
  reachable db s -> consistent s /\ rosterCovers s.
Proof.
  induction 1 as [people loaded camera|a s _ IH].
  - apply initializeAR_invariant.
  - now apply perform_invariant.
Qed.

(** C3. A cycle without a face sets the status to "Scanning..." and clears
    the tracking flag, and leaves [lastMatchedId] and the displayed person
    as they were.  A cycle in which the matcher is run on a face and returns
    none sets the status to "Unknown face"; if a person was matched before,
    the displayed person and [lastMatchedId] are cleared, and otherwise the
    displayed person is not assigned: a second such cycle changes nothing. *)
Theorem recognize_sticky_then_cleared (s : State) :
  ready s ->
  (let s' := fst (fst (recognize db s None)) in
   recognitionStatus s' = "Scanning..."%string /\
   isTracking s' = false /\
   lastMatchedId s' = lastMatchedId s /\
   detectedPerson s' = detectedPerson s) /\
  (forall pos d,
      storedDescriptors s <> [] ->
      result (findBestMatch d (storedDescriptors s)) = Returned None ->
      let detection := Some {| position := pos; descriptor := Some d |} in
      let s' := fst (fst (recognize db s detection)) in
      recognitionStatus s' = "Unknown face"%string /\
      lastMatchedId s' = None /\
      (lastMatchedId s <> None -> detectedPerson s' = None) /\
      (lastMatchedId s = None -> detectedPerson s' = detectedPerson s) /\
      fst (fst (recognize db s' detection)) = s').
Proof.
  intros Hready. split.
  - rewrite (recognize_no_face s Hready). cbn. auto.
  - intros pos d Hne Hnone. cbn zeta.
    rewrite (recognize_unknown s pos d Hready Hne Hnone). cbn [fst].
    set (s' := match lastMatchedId s with
               | Some _ => _
               | None => _
               end).
    assert (Hready' : ready s').
    { destruct Hready as (H1 & H2 & H3). subst s'.
      destruct (lastMatchedId s); repeat split; assumption. }
    assert (Hs' : storedDescriptors s' = storedDescriptors s)
      by (subst s'; now destruct (lastMatchedId s)).
    assert (Hlast' : lastMatchedId s' = None).
    { subst s'. destruct (lastMatchedId s) eqn:E; [reflexivity | exact E]. }
    split; [subst s'; now destruct (lastMatchedId s)|].
    split; [exact Hlast'|].
    split; [subst s'; destruct (lastMatchedId s); [reflexivity | congruence]|].
    split; [intros E; subst s'; now rewrite E|].
    rewrite (recognize_unknown s' pos d Hready');
      [|rewrite Hs'; exact Hne|rewrite Hs'; exact Hnone].
    rewrite Hlast'. cbn [fst]. subst s'.
    destruct s; cbn. now destruct lastMatchedId0.
Qed.

(** C4, amended.  When the matcher returns the identity that is already in
    [lastMatchedId], the cycle assigns the target position and the tracking
    flag, as every cycle with a face does, and nothing else: the last
    matched id, the displayed person and the status keep their values and
    no conversation is fetched.  Two consecutive cycles matching one
    identity that was not matched before, and that is in the roster, fetch
    its conversation exactly once. *)
Theorem recognize_debounce (s : State) pos d m :
  ready s ->
  storedDescriptors s <> [] ->
  result (findBestMatch d (storedDescriptors s)) = Returned (Some m) ->
  let detection := Some {| position := pos; descriptor := Some d |} in
  (lastMatchedId s = Some (personId m) ->
   let s' := fst (fst (recognize db s detection)) in
   s' = tracked pos s /\
   lastMatchedId s' = lastMatchedId s /\
   detectedPerson s' = detectedPerson s /\
   recognitionStatus s' = recognitionStatus s /\
   fetches (snd (fst (recognize db s detection))) = []) /\
  (lastMatchedId s <> Some (personId m) ->
   find (hasId (personId m)) (allPeople s) <> None ->
   forall pos' d' m',
     result (findBestMatch d' (storedDescriptors s)) = Returned (Some m') ->
     personId m' = personId m ->
     let s1 := fst (fst (recognize db s detection)) in
     let detection' := Some {| position := pos'; descriptor := Some d' |} in
     (fetches (snd (fst (recognize db s detection)))
        ++ fetches (snd (fst (recognize db s1 detection'))))%list
     = [personId m]).
Proof.
  intros Hready Hne Hres. cbn zeta. split.
  - intros Hlast. rewrite (recognize_same s pos d m Hready Hne Hres Hlast).
    cbn [fst snd]. rewrite fetches_findBestMatch. cbn. auto.
  - intros Hlast Hfound pos' d' m' Hres' Hid.
    destruct (find (hasId (personId m)) (allPeople s)) as [mp|] eqn:Hp;
      [|contradiction].
    rewrite (recognize_new s pos d m mp Hready Hne Hres Hlast Hp).
    cbn [fst snd].
    rewrite fetches_app, fetches_findBestMatch. cbn [fetches app].
    match goal with
    | |- context [recognize db ?s1 _] =>
        rewrite (recognize_same s1 pos' d' m')
    end.
    + cbn [fst snd]. now rewrite fetches_findBestMatch.
    + destruct Hready as (H1 & H2 & H3). repeat split; assumption.
    + exact Hne.
    + exact Hres'.
    + cbn. now rewrite Hid.
Qed.


Lemma scanPeople_first_mismatch (q : FaceDetection.descriptor)
    (l1 l2 : list StoredPerson) (p : StoredPerson) :
  sameDimension q l1 ->
  length (descriptor_of p) <> length q ->
  forall best,
    scanPeople q (l1 ++ p :: l2) best
    = (map (logOf q) l1, Thrown DimensionMismatch).
Proof.
  intros Hdim Hp. induction Hdim as [|p1 l1 Hp1 _ IH]; intros best.
  - cbn [app scanPeople map]. now rewrite (compareFaces_mismatch q _ Hp).
  - cbn [app scanPeople map]. rewrite (compareFaces_same_length q p1 Hp1).
    unfold lift, emit. cbn [bind]. now rewrite IH.
Qed.

Lemma first_mismatch (q : FaceDetection.descriptor) (l : list StoredPerson) :
  Exists (fun p => length (descriptor_of p) <> length q) l ->
  exists l1 p l2,
    l = (l1 ++ p :: l2)%list /\ sameDimension q l1 /\
    length (descriptor_of p) <> length q.
Proof.
  induction l as [|p0 l IH]; intros Hex; [inversion Hex|].
  destruct (Nat.eq_dec (length (descriptor_of p0)) (length q)) as [Heq|Hne].
  - inversion Hex as [? ? Hhd|? ? Htl]; subst; [contradiction|].
    destruct (IH Htl) as (l1 & p & l2 & -> & Hdim & Hp).
    exists (p0 :: l1), p, l2. repeat split; auto. now constructor.
  - exists [], p0, l. repeat split; auto. constructor.
Qed.

(** C7. When a candidate's embedding does not have the length of the
    query, its comparison throws instead of producing a score: the scan
    stops at the first such candidate, after logging the scores of the
    candidates before it only, [findBestMatch] throws, and the poll cycle
    that made the call is rejected without changing the matched id, the
    displayed person or the status and without fetching a conversation. *)
Theorem mismatch_stops_the_match (q : FaceDetection.descriptor)
    (people : list StoredPerson) :
  Exists (fun p => length (descriptor_of p) <> length q) people ->
  (exists l1 p l2,
      people = (l1 ++ p :: l2)%list /\
      sameDimension q l1 /\
      compareFaces q (descriptor_of p) = Thrown DimensionMismatch /\
      findBestMatch q people = (map (logOf q) l1, Thrown DimensionMismatch)) /\
  (forall s pos,
      ready s -> storedDescriptors s = people ->
      let detection := Some {| position := pos; descriptor := Some q |} in
      let s' := fst (fst (recognize db s detection)) in
      snd (recognize db s detection) = Rejected DimensionMismatch /\
      fetches (snd (fst (recognize db s detection))) = [] /\
      lastMatchedId s' = lastMatchedId s /\
      detectedPerson s' = detectedPerson s /\
      recognitionStatus s' = recognitionStatus s).
Proof.
  intros Hex. split.
  - destruct (first_mismatch q people Hex) as (l1 & p & l2 & -> & Hdim & Hp).
    exists l1, p, l2. split; [reflexivity|]. split; [exact Hdim|].
    split; [now apply compareFaces_mismatch|].
    unfold findBestMatch.
    rewrite (scanPeople_first_mismatch q l1 l2 p Hdim Hp).
    now destruct l1.
  - intros s pos Hready Hs. cbn zeta.
    assert (Hne : storedDescriptors s <> []).
    { rewrite Hs. intros ->. inversion Hex. }
    rewrite (recognize_thrown s pos q DimensionMismatch Hready Hne)
      by (rewrite Hs; now apply findBestMatch_mismatch).
    cbn [fst snd]. rewrite fetches_findBestMatch. cbn. auto.
Qed.

End RecognizeFacts.


Section ScenarioFacts.

Import FaceDetection ARViewer Scenario.

Lemma findBestMatch_far (i : Z) :
  result (findBestMatch [2] [ {| id := i; descriptor_of := [0] |} ])
  = Returned None.
Proof.
  rewrite findBestMatch_same_dimension; [|repeat constructor|discriminate].
  cbn [result snd fold_left]. unfold pick. rewrite score_1d.
  replace (Rmax 0 (1 - Rabs (2 - 0))) with 0.
  - cbn [sentinel similarity].
    destruct (Rgt_dec 0 0) as [Hgt|_]; [exfalso; lra|].
    unfold aboveThreshold, MATCH_THRESHOLD, sentinel. cbn [similarity].
    destruct (Rge_dec 0 0.4) as [Hge|_]; [exfalso; lra | reflexivity].
  - unfold Rmax, Rabs.
    destruct (Rcase_abs (2 - 0)); destruct (Rle_dec _ _); lra.
Qed.

Lemma session_ready : ready session.
Proof. repeat split. Qed.

Lemma recognized_eq :
  recognized
  = setRecognitionStatus ("Recognized (" ++ percent 1 ++ "%)")
      (setDetectedPerson
         (Some {| person := alice;
                  lastConvo := Some "No recent conversations recorded."%string |})
         (setLastMatchedId (Some 1%Z) (tracked centre session))).
Proof.
  unfold recognized, perform, at_.
  rewrite (recognize_new noConversations session centre [0]
             {| personId := 1; similarity := 1 |} alice).
  - reflexivity.
  - exact session_ready.
  - discriminate.
  - apply findBestMatch_self.
  - discriminate.
  - reflexivity.
Qed.

Lemma recognized_ready : ready recognized.
Proof. rewrite recognized_eq. repeat split. Qed.

Lemma dropout_eq :
  dropout = setRecognitionStatus "Scanning..." (setIsTracking false recognized).
Proof.
  unfold dropout, perform.
  now rewrite (recognize_no_face noConversations recognized recognized_ready).
Qed.

Lemma dropout_ready : ready dropout.
Proof. rewrite dropout_eq, recognized_eq. repeat split. Qed.

Lemma dropout_matched : lastMatchedId dropout = Some 1%Z.
Proof. rewrite dropout_eq, recognized_eq. reflexivity. Qed.

Lemma dropout_stored :
  storedDescriptors dropout = [ {| id := 1; descriptor_of := [0] |} ].
Proof. rewrite dropout_eq, recognized_eq. reflexivity. Qed.

Lemma recognized_stored :
  storedDescriptors recognized = [ {| id := 1; descriptor_of := [0] |} ].
Proof. rewrite recognized_eq. reflexivity. Qed.

Lemma mismatched_ready : ready mismatched.
Proof. repeat split. Qed.

Lemma recognize_sticky_then_cleared_witness :
  let detection := at_ centre [2] in
  let s' := fst (fst (recognize noConversations recognized detection)) in
  recognitionStatus s' = "Unknown face"%string /\
  lastMatchedId s' = None /\
  (lastMatchedId recognized <> None -> detectedPerson s' = None) /\
  (lastMatchedId recognized = None ->
   detectedPerson s' = detectedPerson recognized) /\
  fst (fst (recognize noConversations s' detection)) = s'.
Proof.
  apply (proj2 (recognize_sticky_then_cleared noConversations recognized
                  recognized_ready)).
  - rewrite recognized_stored. discriminate.
  - rewrite recognized_stored. apply findBestMatch_far.
Defined.

(** C4 as stated fails: [alice] is matched, the face is lost for a cycle,
    and the next cycle matches [alice] again.  The identity is the one in
    [lastMatchedId], yet the cycle changes the state: the tracking flag goes
    from false to true. *)
Lemma same_identity_cycle_changes_state :
  lastMatchedId dropout = Some 1%Z /\
  result (findBestMatch [0] (storedDescriptors dropout))
  = Returned (Some {| personId := 1; similarity := 1 |}) /\
  isTracking dropout = false /\
  isTracking (fst (fst (recognize noConversations dropout (at_ centre [0]))))
  = true /\
  fst (fst (recognize noConversations dropout (at_ centre [0]))) <> dropout.
Proof.
  assert (Hres : result (findBestMatch [0] (storedDescriptors dropout))
                 = Returned (Some {| personId := 1; similarity := 1 |}))
    by (rewrite dropout_stored; apply findBestMatch_self).
  assert (Hne : storedDescriptors dropout <> [])
    by (rewrite dropout_stored; discriminate).
  assert (Hoff : isTracking dropout = false)
    by (rewrite dropout_eq; reflexivity).
  assert (Hon : isTracking
                  (fst (fst (recognize noConversations dropout (at_ centre [0]))))
                = true).
  { unfold at_.
    rewrite (recognize_same noConversations dropout centre [0]
               {| personId := 1; similarity := 1 |}
               dropout_ready Hne Hres dropout_matched).
    reflexivity. }
  split; [exact dropout_matched|]. split; [exact Hres|].
  split; [exact Hoff|]. split; [exact Hon|].
  intros Heq. rewrite Heq in Hon. congruence.
Qed.

Lemma recognize_debounce_witness :
  (let s' := fst (fst (recognize noConversations dropout (at_ centre [0]))) in
   s' = tracked centre dropout /\
   lastMatchedId s' = lastMatchedId dropout /\
   detectedPerson s' = detectedPerson dropout /\
   recognitionStatus s' = recognitionStatus dropout /\
   fetches (snd (fst (recognize noConversations dropout (at_ centre [0])))) = [])
  /\
  (let s1 := fst (fst (recognize noConversations session (at_ centre [0]))) in
   (fetches (snd (fst (recognize noConversations session (at_ centre [0]))))
      ++ fetches (snd (fst (recognize noConversations s1 (at_ centre [0])))))%list
   = [1%Z]).
Proof.
  split.
  - apply (proj1 (recognize_debounce noConversations dropout centre [0]
                    {| personId := 1; similarity := 1 |} dropout_ready
                    ltac:(rewrite dropout_stored; discriminate)
                    ltac:(rewrite dropout_stored; apply findBestMatch_self))).
    exact dropout_matched.
  - apply (proj2 (recognize_debounce noConversations session centre [0]
                    {| personId := 1; similarity := 1 |} session_ready
                    ltac:(discriminate)
                    (findBestMatch_self [0] 1%Z)))
      with (m' := {| personId := 1; similarity := 1 |}).
    + discriminate.
    + discriminate.
    + apply findBestMatch_self.
    + reflexivity.
Defined.


Lemma mismatch_stops_the_match_witness :
  let detection := at_ centre [0] in
  let s' := fst (fst (recognize noConversations mismatched detection)) in
  snd (recognize noConversations mismatched detection)
  = Rejected DimensionMismatch /\
  fetches (snd (fst (recognize noConversations mismatched detection))) = [] /\
  lastMatchedId s' = lastMatchedId mismatched /\
  detectedPerson s' = detectedPerson mismatched /\
  recognitionStatus s' = recognitionStatus mismatched.
Proof.
  apply (proj2 (mismatch_stops_the_match noConversations [0]
                  [ {| id := 2; descriptor_of := [0; 0] |} ]
                  ltac:(constructor; cbn; lia))).
  - exact mismatched_ready.
  - reflexivity.
Defined.

End ScenarioFacts.

(** ** The overlay animator *)

Section AnimatorFacts.

Import ARViewer Scenario.

Lemma animate_target (s : State) : targetPos (animate s) = targetPos s.
Proof. reflexivity. Qed.

Lemma animate_offsetX (s : State) : offsetX (animate s) = 0.88 * offsetX s.
Proof. unfold offsetX. cbn. lra. Qed.

Lemma animate_offsetY (s : State) : offsetY (animate s) = 0.88 * offsetY s.
Proof. unfold offsetY. cbn. lra. Qed.

Lemma frames_offsets (n : nat) (s : State) :
  targetPos (frames n s) = targetPos s /\
  offsetX (frames n s) = 0.88 ^ n * offsetX s /\
  offsetY (frames n s) = 0.88 ^ n * offsetY s.
Proof.
  induction n as [|n (IHt & IHx & IHy)].
  - cbn. repeat split; lra.
  - change (frames (S n) s) with (animate (frames n s)).
    rewrite animate_target, animate_offsetX, animate_offsetY, IHx, IHy.
    cbn [pow]. repeat split; [exact IHt | lra | lra].
Qed.

Lemma pow_088_bounds (n : nat) : 0 < 0.88 ^ n <= 1.
Proof.
  split; [apply pow_lt; lra|].
  rewrite <- (pow1 n). apply pow_incr. lra.
Qed.








(** The binary64 step agrees with the figures above: one frame gives the
    doubles written 75.6 and 28.8, fifty frames leave more than 0.1 % of the
    offset and fifty-five leave less. *)
#[local] Set Warnings "-inexact-float".
Example animateAxis64_one_frame :
  PrimFloat.eqb (animateAxis64 80 75) 75.6 = true /\
  PrimFloat.eqb (animateAxis64 20 30) 28.8 = true.
Proof. split; reflexivity. Qed.

Example framesAxis64_fifty_and_fifty_five :
  PrimFloat.ltb (PrimFloat.abs (framesAxis64 50 80 75 - 80))
                (0.001 * PrimFloat.abs (75 - 80)) = false /\
  PrimFloat.ltb (PrimFloat.abs (framesAxis64 55 80 75 - 80))
                (0.001 * PrimFloat.abs (75 - 80)) = true.
Proof. split; reflexivity. Qed.
#[local] Set Warnings "inexact-float".

End AnimatorFacts.

(** ** The summarizer *)

Section SummarizerFacts.

Import Gemini Scenario.

Example fallback_names_the_topic :
  createFallbackSummary "I went to the Doctor" = "Talked about doctor".
Proof. reflexivity. Qed.

Example fallback_of_a_short_text :
  createFallbackSummary "  hi there " = "Had a conversation recently".
Proof. reflexivity. Qed.

Example fallback_keeps_eight_words :
  createFallbackSummary "one two three  four five six seven eight nine ten"
  = "one two three four five six seven eight...".
Proof. reflexivity. Qed.

Example extractSummary_of_a_reply :
  extractSummary rosesReply
  = Returned
      (Some (String doubleQuote ("Talked about roses"
                                   ++ String doubleQuote EmptyString))).
Proof. reflexivity. Qed.

Example summarizeConversation_of_a_reply :
  summarizeConversation (Some "key")
    (Responded {| status := 200; json := Returned rosesReply |})
    "Mom planted roses"
  = Returned "Talked about roses".
Proof. reflexivity. Qed.

Example summarizeConversation_of_a_null_body :
  summarizeConversation (Some "key")
    (Responded {| status := 200; json := Returned JNull |})
    "Mom planted roses"
  = Returned "Mom planted roses...".
Proof. reflexivity. Qed.

Lemma summarizeConversation_without_key key network text :
  truthy key = false ->
  summarizeConversation key network text
  = Returned (createFallbackSummary text).
Proof. intros Hkey. unfold summarizeConversation. now rewrite Hkey. Qed.

(** C9. [summarizeConversation] never throws, whatever the key, the network
    and the text; and when the key is missing, the request throws, the
    response is a 429 or is not OK, its body cannot be read, or no summary
    can be extracted from it, the result is the fallback summary of the
    text. *)
Theorem summarizeConversation_absorbs_failures
    (key : option string) (network : FetchResult) (text : string) :
  (exists summary, summarizeConversation key network text = Returned summary) /\
  (Failure key network ->
   summarizeConversation key network text
   = Returned (createFallbackSummary text)).
Proof.
  split.
  - unfold summarizeConversation.
    destruct (truthy key); cbn [negb]; [|eauto].
    destruct network as [e|r]; cbn [obind tryCatch]; [eauto|].
    destruct (Z.eqb (status r) 429); cbn [tryCatch]; [eauto|].
    destruct (ok r); cbn [negb tryCatch]; [|eauto].
    destruct (json r) as [data|e]; cbn [obind tryCatch]; [|eauto].
    destruct (extractSummary data) as [[v|]|e]; cbn [obind tryCatch];
      [|eauto|eauto].
    destruct (String.eqb v EmptyString); cbn [tryCatch]; eauto.
  - intros Hfail.
    destruct (truthy key) eqn:Hkey;
      [|now apply summarizeConversation_without_key].
    unfold summarizeConversation. rewrite Hkey. cbn [negb].
    destruct Hfail as [network Hmissing|e|r Hstatus|r Hok|r e Hjson
                      |r data e Hjson Hextract|r data v Hjson Hextract Hv].
    + congruence.
    + reflexivity.
    + cbn [obind]. rewrite Hstatus. reflexivity.
    + cbn [obind]. rewrite Hok.
      now destruct (Z.eqb (status r) 429).
    + cbn [obind].
      destruct (Z.eqb (status r) 429); [reflexivity|].
      destruct (ok r); [|reflexivity]. cbn [negb]. now rewrite Hjson.
    + cbn [obind].
      destruct (Z.eqb (status r) 429); [reflexivity|].
      destruct (ok r); [|reflexivity]. cbn [negb]. rewrite Hjson.
      cbn [obind]. now rewrite Hextract.
    + cbn [obind].
      destruct (Z.eqb (status r) 429); [reflexivity|].
      destruct (ok r); [|reflexivity]. cbn [negb]. rewrite Hjson.
      cbn [obind]. rewrite Hextract. cbn [obind tryCatch].
      destruct v as [v|]; [|reflexivity].
      cbn [truthy] in Hv. apply negb_false_iff in Hv. now rewrite Hv.
Qed.

Lemma summarizeConversation_absorbs_failures_witness :
  summarizeConversation (Some "key"%string)
    (Responded {| status := 503; json := Returned JNull |})
    "We had lunch"%string
  = Returned "Talked about lunch"%string.
Proof.
  apply (proj2 (summarizeConversation_absorbs_failures (Some "key"%string)
                  (Responded {| status := 503; json := Returned JNull |})
                  "We had lunch"%string)).
  apply NotOk. reflexivity.
Defined.

End SummarizerFacts.

(** * Further properties *)

(** ** The matcher *)

Section MatcherExtras.

Import FaceDetection.

Lemma sumSquaredDiff_sym (a b : descriptor) :
  sumSquaredDiff a b = sumSquaredDiff b a.
Proof.
  revert b. induction a as [|u a IH]; intros [|v b]; cbn; try reflexivity.
  rewrite (IH b). ring.
Qed.



(** X1. The similarity does not depend on the order of the two
    descriptors, nor does the failure of the comparison. *)
Theorem compareFaces_sym (a b : descriptor) :
  compareFaces a b = compareFaces b a.
Proof.
  unfold compareFaces.
  destruct (Nat.eq_dec (length a) (length b)) as [Heq|Hne].
  - rewrite (euclideanDistance_same_length a b Heq).
    rewrite (euclideanDistance_same_length b a (eq_sym Heq)).
    unfold distance. now rewrite sumSquaredDiff_sym.
  - rewrite (euclideanDistance_mismatch a b Hne).
    rewrite (euclideanDistance_mismatch b a); [reflexivity | congruence].
Qed.





(** X4. On candidates of the query's length the scan never stops early:
    one comparison is logged per candidate, in the order of the list, with
    that candidate's score. *)
Theorem findBestMatch_scans_all (q : descriptor) (people : list StoredPerson) :
  sameDimension q people ->
  trace (findBestMatch q people) = map (logOf q) people.
Proof.
  intros Hdim. destruct people as [|p l]; [reflexivity|].
  now rewrite (findBestMatch_same_dimension q (p :: l) Hdim) by discriminate.
Qed.

Lemma findBestMatch_scans_all_witness :
  trace (findBestMatch [0] [ {| id := 1; descriptor_of := [0] |};
                             {| id := 2; descriptor_of := [1] |} ])
  = map (logOf [0]) [ {| id := 1; descriptor_of := [0] |};
                      {| id := 2; descriptor_of := [1] |} ].
Proof.
  apply (findBestMatch_scans_all [0]). repeat constructor.
Defined.



End MatcherExtras.

Section MatcherExtrasExamples.

Import FaceDetection.


End MatcherExtrasExamples.

(** ** The session of the AR viewer *)

Section SessionExtras.

Import FaceDetection ARViewer Detector Session.

Variable db : Z -> option Database.Conversation.

(** What a call of [recognize] can make of a state. *)
Lemma recognize_shape (s : State) (detection : option FaceDetectionResult) :
  let s' := fst (fst (recognize db s detection)) in
  s' = s \/
  s' = setRecognitionStatus "Scanning..." (setIsTracking false s) \/
  exists pos,
    s' = tracked pos s \/
    (exists label, s' = setRecognitionStatus label (tracked pos s)) \/
    s' = setDetectedPerson None
           (setLastMatchedId None
              (setRecognitionStatus "Unknown face" (tracked pos s))) \/
    (exists d m,
        result (findBestMatch d (storedDescriptors s)) = Returned (Some m) /\
        find (hasId (personId m)) (allPeople s) = None /\
        s' = setLastMatchedId (Some (personId m)) (tracked pos s)) \/
    (exists d m mp,
        result (findBestMatch d (storedDescriptors s)) = Returned (Some m) /\
        find (hasId (personId m)) (allPeople s) = Some mp /\
        s' = setRecognitionStatus
               ("Recognized (" ++ percent (similarity m) ++ "%)")
               (setDetectedPerson
                  (Some {| person := mp;
                           lastConvo :=
                             Some (summaryOrDefault (db (personId m))) |})
                  (setLastMatchedId (Some (personId m)) (tracked pos s)))).
Proof.
  cbn zeta. unfold recognize.
  destruct (negb (recognitionLoop s)); [now left|].
  destruct (negb (videoMounted s) || negb (modelsReady s)); [now left|].
  destruct detection as [[pos [d|]]|]; cbn -[findBestMatch];
    [| |right; now left].
  2:{ right. right. exists pos. right. left.
      destruct (storedDescriptors s); cbn; eauto. }
  right. right. exists pos.
  destruct (storedDescriptors s) as [|p l] eqn:Hs; cbn -[findBestMatch];
    [right; left; eauto|].
  destruct (findBestMatch d (p :: l)) as [log [[m|]|e]] eqn:Hfind;
    cbn -[findBestMatch]; [| |now left].
  - destruct (sameId (personId m) (lastMatchedId s)); cbn; [now left|].
    assert (Hres : result (findBestMatch d (p :: l)) = Returned (Some m))
      by now rewrite Hfind.
    destruct (find (hasId (personId m)) (allPeople s)) as [mp|] eqn:Hp; cbn.
    + right. right. right. right. exists d, m, mp.
      split; [exact Hres|]. split; [exact Hp|].
      apply find_some in Hp as [_ Hid]. unfold hasId in Hid.
      destruct (Database.id mp) as [i|]; [|discriminate].
      apply Z.eqb_eq in Hid. now subst i.
    + right. right. right. left. exists d, m.
      split; [exact Hres|]. now split.
  - destruct (lastMatchedId s); cbn; [right; right; now left|].
    right. left. eauto.
Qed.

(** The cells that [recognize] never assigns. *)
Lemma recognize_frame (s : State) (detection : option FaceDetectionResult) :
  let s' := fst (fst (recognize db s detection)) in
  smoothPos s' = smoothPos s /\ overlayPos s' = overlayPos s /\
  storedDescriptors s' = storedDescriptors s /\ allPeople s' = allPeople s /\
  recognitionLoop s' = recognitionLoop s /\ modelsReady s' = modelsReady s /\
  videoMounted s' = videoMounted s /\ hasStream s' = hasStream s /\
  cameraActive s' = cameraActive s /\ isRayBanMode s' = isRayBanMode s.
Proof.
  destruct (recognize_shape s detection)
    as [->|[->|(pos & [->|[(label & ->)|[->|[(d & m & _ & _ & ->)
                                            |(d & m & mp & _ & _ & ->)]]]])]];
    cbn; repeat split.
Qed.

Lemma recognize_target (s : State) (result : FaceDetectionResult) :
  ready s ->
  targetPos (fst (fst (recognize db s (Some result))))
  = {| x := Rmin (faceX (position result) + 8) 85;
       y := Rmax (faceY (position result) - 5) 10 |}.
Proof.
  intros (Hloop & Hvideo & Hmodels). unfold recognize.
  rewrite Hloop, Hvideo, Hmodels. cbn -[findBestMatch].
  destruct (descriptor result) as [d|]; cbn -[findBestMatch].
  - destruct (storedDescriptors s) as [|p l]; cbn -[findBestMatch];
      [reflexivity|].
    destruct (findBestMatch d (p :: l)) as [log [[m|]|e]];
      cbn -[findBestMatch]; [| |reflexivity].
    + destruct (sameId (personId m) (lastMatchedId s)); cbn; [reflexivity|].
      now destruct (find (hasId (personId m)) (allPeople s)).
    + now destruct (lastMatchedId s).
  - now destruct (storedDescriptors s).
Qed.

Lemma percentage_in_frame (a w : R) :
  0 < w -> 0 <= a <= w -> 0 <= a / w * 100 <= 100.
Proof.
  intros Hw [Ha Haw].
  assert (Hq : 0 <= a / w <= 1).
  { split.
    - apply Rmult_le_pos; [exact Ha | apply Rlt_le, Rinv_0_lt_compat, Hw].
    - apply (Rmult_le_reg_r w); [exact Hw|].
      unfold Rdiv. rewrite Rmult_assoc, Rinv_l; lra. }
  lra.
Qed.

(** X6. For a face box inside a frame of positive size, the detector
    reports the right edge and the top of the box as percentages between 0
    and 100, and the poll cycle that receives it puts the overlay target
    between 8 % and 85 % horizontally and between 10 % and 95 %
    vertically. *)
Theorem detected_face_target (s : State) (video : Video) (found : Detection) :
  inFrame video (box found) ->
  ready s ->
  exists result,
    detectFaceWithDescriptor true video (Returned (Some found)) = Some result /\
    descriptor result = Some (faceDescriptor found) /\
    0 <= faceX (position result) <= 100 /\
    0 <= faceY (position result) <= 100 /\
    let s' := fst (fst (recognize db s (Some result))) in
    8 <= x (targetPos s') <= 85 /\ 10 <= y (targetPos s') <= 95.
Proof.
  intros (Hw & Hh & Hx & Hbw & Hxw & Hy & Hbh & Hyh) Hready.
  eexists. split; [reflexivity|]. split; [reflexivity|].
  cbn [position faceX faceY].
  assert (HX : 0 <= (boxX (box found) + boxWidth (box found))
                    / orNumber (videoWidth video) (clientWidth video) * 100
               <= 100) by (apply percentage_in_frame; lra).
  assert (HY : 0 <= boxY (box found)
                    / orNumber (videoHeight video) (clientHeight video) * 100
               <= 100) by (apply percentage_in_frame; lra).
  split; [exact HX|]. split; [exact HY|].
  cbn zeta. rewrite (recognize_target s _ Hready). cbn [x y position faceX faceY].
  unfold Rmin, Rmax.
  destruct (Rle_dec _ 85); destruct (Rle_dec _ 10); lra.
Qed.

(** X7. In every reachable state the target, the smoothed position and the
    displayed position of the overlay are at most 85 % from the left and at
    least 10 % from the top, and the displayed position is the smoothed
    one. *)
Theorem overlay_stays_in_bounds (s : State) :
  reachable db s ->
  inBounds (targetPos s) /\ inBounds (smoothPos s) /\
  inBounds (overlayPos s) /\ overlayPos s = smoothPos s.
Proof.
  unfold inBounds.
  induction 1 as [people loaded camera|a s _ IH].
  - destruct camera; cbn; repeat split; lra.
  - destruct IH as ((Htx & Hty) & (Hsx & Hsy) & (Hox & Hoy) & Heq).
    destruct a as [detection| | |]; cbn [perform].
    + destruct (recognize_frame s detection) as (-> & -> & _).
      split; [|repeat split; assumption].
      destruct (recognize_shape s detection)
        as [->|[->|(pos & [->|[(label & ->)|[->|[(d & m & _ & _ & ->)
                                                |(d & m & mp & _ & _ & ->)]]]])]];
        cbn; try (split; assumption);
        (split; [apply Rmin_r | apply Rmax_r]).
    + cbn. repeat split; lra.
    + unfold stopVideo. destruct (videoMounted s && hasStream s); cbn;
        repeat split; assumption.
    + cbn. repeat split; assumption.
Qed.

Lemma findBestMatch_thrown (q : FaceDetection.descriptor)
    (l : list StoredPerson) (e : exn) :
  result (findBestMatch q l) = Thrown e ->
  e = DimensionMismatch /\
  Exists (fun p => length (descriptor_of p) <> length q) l.
Proof.
  intros Hres.
  destruct (mismatch_or_same_dimension q l) as [Hdim|Hex].
  - exfalso. destruct l as [|p l]; [discriminate|].
    rewrite (findBestMatch_same_dimension q (p :: l) Hdim) in Hres
      by discriminate.
    discriminate.
  - rewrite (findBestMatch_mismatch q l Hex) in Hres.
    split; [congruence | exact Hex].
Qed.

(** X8. How a poll cycle ends.  It is not re-armed exactly when the loop
    flag is cleared; it waits 500 ms, having changed and logged nothing,
    while the video element or the models are missing; otherwise it reaches
    the detector and is re-armed after 200 ms, unless the matcher throws,
    which only a stored descriptor of another length than the detected one
    causes. *)
Theorem recognize_cadence (s : State) (detection : option FaceDetectionResult) :
  match snd (recognize db s detection) with
  | Stopped =>
      recognitionLoop s = false /\ fst (recognize db s detection) = (s, [])
  | Rescheduled delay =>
      recognitionLoop s = true /\
      ((delay = 500%Z /\ (videoMounted s = false \/ modelsReady s = false) /\
        fst (recognize db s detection) = (s, [])) \/
       (delay = 200%Z /\ ready s))
  | Rejected e =>
      ready s /\ e = DimensionMismatch /\
      exists pos d,
        detection = Some {| position := pos; descriptor := Some d |} /\
        Exists (fun p => length (descriptor_of p) <> length d)
               (storedDescriptors s)
  end.
Proof.
  unfold recognize.
  destruct (recognitionLoop s) eqn:Hloop; cbn [negb]; [|now split].
  destruct (videoMounted s) eqn:Hvideo; cbn [negb orb].
  2:{ split; [reflexivity|]. left. auto. }
  destruct (modelsReady s) eqn:Hmodels; cbn [negb].
  2:{ split; [reflexivity|]. left. auto. }
  assert (Hready : ready s) by (repeat split; assumption).
  destruct detection as [[pos [d|]]|]; cbn -[findBestMatch];
    [| |split; [reflexivity|]; right; now split].
  2:{ destruct (storedDescriptors s); cbn;
        (split; [reflexivity|]; right; now split). }
  destruct (storedDescriptors s) as [|p l] eqn:Hs; cbn -[findBestMatch];
    [split; [reflexivity|]; right; now split|].
  destruct (findBestMatch d (p :: l)) as [log [[m|]|e]] eqn:Hfind;
    cbn -[findBestMatch].
  - destruct (sameId (personId m) (lastMatchedId s)); cbn;
      [|destruct (find (hasId (personId m)) (allPeople s)); cbn];
      (split; [reflexivity|]; right; now split).
  - split; [reflexivity|]. right. now split.
  - assert (Hres : result (findBestMatch d (p :: l)) = Thrown e)
      by now rewrite Hfind.
    destruct (findBestMatch_thrown d (p :: l) e Hres) as [-> Hex].
    split; [exact Hready|]. split; [reflexivity|]. now exists pos, d.
Qed.




(** X10. When a session is idle and when it polls.  [stopVideo] on a
    session with a stream makes it idle, lowers the camera and tracking
    flags and keeps the displayed person and the matched id.  After
    [initializeAR], polls reach the detector exactly when the models loaded
    and the camera plays; the status is then "Scanning...", and it is "AI
    failed to load" when a camera that plays or is interrupted has no
    models. *)
Theorem session_idle_or_ready :
  (forall s,
      videoMounted s = true -> hasStream s = true ->
      idle (stopVideo s) /\
      cameraActive (stopVideo s) = false /\
      isTracking (stopVideo s) = false /\
      detectedPerson (stopVideo s) = detectedPerson s /\
      lastMatchedId (stopVideo s) = lastMatchedId s) /\
  (forall people loaded camera,
      let s := initializeAR people loaded camera mounted in
      (ready s <-> loaded = true /\ camera = Playing) /\
      (idle s <-> ~ (loaded = true /\ camera = Playing)) /\
      (loaded = true -> camera = Playing ->
       recognitionStatus s = "Scanning..."%string) /\
      (loaded = false -> camera = Playing \/ camera = PlayAborted ->
       recognitionStatus s = "AI failed to load"%string)).
Proof.
  split.
  - intros s Hvideo Hstream. unfold stopVideo. rewrite Hvideo, Hstream.
    cbn. split; [now left | repeat split].
  - intros people loaded camera. cbn zeta. unfold ready, idle.
    destruct loaded, camera; cbn; repeat split; intros;
      try discriminate; try reflexivity; try tauto;
      try (intuition discriminate).
Qed.

Lemma summaryOrDefault_not_empty (c : option Database.Conversation) :
  summaryOrDefault c <> EmptyString.
Proof.
  unfold summaryOrDefault. destruct c as [c|]; [|discriminate].
  destruct (String.eqb_spec (Database.summary c) EmptyString);
    [discriminate | assumption].
Qed.

(** X11. In every reachable state, the text shown with a displayed person
    is the summary that the store gives for the latest conversation of that
    very person, or "No recent conversations recorded." when the store has
    none or its summary is empty; the text is never empty. *)
Theorem displayed_summary (s : State) :
  reachable db s ->
  forall dp,
    detectedPerson s = Some dp ->
    exists i text,
      Database.id (person dp) = Some i /\
      lastConvo dp = Some text /\
      text = summaryOrDefault (db i) /\
      text <> EmptyString.
Proof.
  intros Hreach.
  assert (Hinv : forall dp, detectedPerson s = Some dp ->
            exists i, Database.id (person dp) = Some i /\
                      lastConvo dp = Some (summaryOrDefault (db i))).
  { induction Hreach as [people loaded camera|a s _ IH].
    - intros dp. destruct camera; discriminate.
    - destruct a as [detection| | |]; cbn [perform]; try exact IH.
      + destruct (recognize_shape s detection)
          as [->|[->|(pos & [->|[(label & ->)|[->|[(d & m & _ & _ & ->)
                                                  |(d & m & mp & _ & Hp & ->)]]]])]];
          cbn; try exact IH; try discriminate.
        intros dp [= <-]. exists (personId m). cbn. split; [|reflexivity].
        apply find_some in Hp as [_ Hid]. unfold hasId in Hid.
        destruct (Database.id mp) as [i|]; [|discriminate].
        apply Z.eqb_eq in Hid. now subst i.
      + unfold stopVideo. now destruct (videoMounted s && hasStream s). }
  intros dp Hdp. destruct (Hinv dp Hdp) as (i & Hid & Hconvo).
  exists i, (summaryOrDefault (db i)).
  split; [exact Hid|]. split; [exact Hconvo|]. split; [reflexivity|].
  apply summaryOrDefault_not_empty.
Qed.

Lemma Math_round_percent (v : R) :
  0.4 <= v <= 1 -> (40 <= Math_round (v * 100) <= 100)%Z.
Proof.
  intros [Hlo Hhi]. unfold Math_round.
  destruct (base_Int_part (v * 100 + 1 / 2)) as [Hle Hgt].
  split.
  - apply Z.lt_succ_r. apply Z.lt_pred_lt_succ. cbn.
    apply lt_IZR. lra.
  - apply Z.lt_succ_r. cbn. apply lt_IZR. lra.
Qed.

(** X12. The identity-change edge.  In a reachable state, when a poll
    reaches the detector and the matcher returns an identity other than
    the last matched one, the cycle displays a person of the roster with
    that id together with the text for that id, records the id, sets the
    status to "Recognized (n%)" with n between 40 and 100, queries the
    store once, for that id, and is re-armed after 200 ms. *)
Theorem recognize_identity_change (s : State) pos d m :
  reachable db s ->
  ready s ->
  result (findBestMatch d (storedDescriptors s)) = Returned (Some m) ->
  lastMatchedId s <> Some (personId m) ->
  let outcome := recognize db s (Some {| position := pos;
                                         descriptor := Some d |}) in
  let s' := fst (fst outcome) in
  exists mp,
    In mp (allPeople s) /\
    Database.id mp = Some (personId m) /\
    detectedPerson s'
    = Some {| person := mp;
              lastConvo := Some (summaryOrDefault (db (personId m))) |} /\
    lastMatchedId s' = Some (personId m) /\
    recognitionStatus s'
    = ("Recognized (" ++ percent (similarity m) ++ "%)")%string /\
    (40 <= Math_round (similarity m * 100) <= 100)%Z /\
    fetches (snd (fst outcome)) = [personId m] /\
    snd outcome = Rescheduled 200.
Proof.
  intros Hreach Hready Hres Hlast. cbn zeta.
  destruct (findBestMatch_returned d _ m Hres)
    as (_ & Hge & l1 & sp & l2 & Hl & Hm & _).
  assert (Hne : storedDescriptors s <> [])
    by (rewrite Hl; now destruct l1).
  destruct (reachable_invariant db s Hreach) as [_ Hcover].
  assert (Hin : In sp (storedDescriptors s))
    by (rewrite Hl; apply in_or_app; right; now left).
  specialize (Hcover sp Hin).
  replace (id sp) with (personId m) in Hcover by now rewrite Hm.
  destruct (find (hasId (personId m)) (allPeople s)) as [mp|] eqn:Hp;
    [|contradiction].
  rewrite (recognize_new db s pos d m mp Hready Hne Hres Hlast Hp).
  cbn [fst snd]. exists mp.
  pose proof Hp as Hp'. apply find_some in Hp' as [Hinp Hid].
  split; [exact Hinp|]. split.
  { unfold hasId in Hid. destruct (Database.id mp) as [i|]; [|discriminate].
    apply Z.eqb_eq in Hid. now subst i. }
  split; [reflexivity|]. split; [reflexivity|]. split; [reflexivity|].
  split.
  { apply Math_round_percent. split; [exact Hge|].
    rewrite Hm. cbn [similarity]. apply score_bounds. }
  split; [|reflexivity].
  rewrite fetches_app, fetches_findBestMatch. reflexivity.
Qed.

Lemma buildDescriptors_sound (people : list Database.Person) sp :
  In sp (buildDescriptors people) ->
  id sp <> 0%Z /\
  exists p, In p people /\
            Database.id p = Some (id sp) /\
            Database.faceDescriptor p = Some (descriptor_of sp).
Proof.
  induction people as [|p people IH]; cbn [buildDescriptors]; [intros []|].
  intros Hin.
  assert (Htail : In sp (buildDescriptors people) ->
            id sp <> 0%Z /\
            exists p', In p' (p :: people) /\
                       Database.id p' = Some (id sp) /\
                       Database.faceDescriptor p' = Some (descriptor_of sp)).
  { intros H. destruct (IH H) as (Hnz & p' & Hin' & Hid & Hd).
    split; [exact Hnz|]. exists p'. split; [now right | auto]. }
  destruct (Database.id p) as [i|] eqn:Hid; [|auto].
  destruct (Database.faceDescriptor p) as [d|] eqn:Hd; [|auto].
  destruct (Z.eqb_spec i 0) as [Hz|Hnz]; [auto|].
  destruct Hin as [<-|Hin]; [|auto].
  cbn [id descriptor_of]. split; [exact Hnz|].
  exists p. split; [now left | auto].
Qed.

Lemma reachable_roster (s : State) :
  reachable db s ->
  storedDescriptors s = buildDescriptors (allPeople s) /\
  forall i, lastMatchedId s = Some i ->
            exists sp, In sp (storedDescriptors s) /\ id sp = i.
Proof.
  induction 1 as [people loaded camera|a s _ [IHs IHl]].
  - split; [now destruct camera|]. intros i. destruct camera; discriminate.
  - destruct a as [detection| | |]; cbn [perform]; try (split; assumption).
    + destruct (recognize_frame s detection) as (_ & _ & -> & -> & _).
      split; [exact IHs|].
      destruct (recognize_shape s detection)
        as [->|[->|(pos & [->|[(label & ->)|[->|[(d & m & Hres & _ & ->)
                                                |(d & m & mp & Hres & _ & ->)]]]])]];
        cbn; try exact IHl; try discriminate;
        intros i [= <-];
        destruct (findBestMatch_returned d _ m Hres)
          as (_ & _ & l1 & sp & l2 & Hl & Hm & _);
        exists sp; (split; [rewrite Hl; apply in_or_app; right; now left|]);
        now rewrite Hm.
    + unfold stopVideo. destruct (videoMounted s && hasStream s);
        split; assumption.
Qed.

(** X13. Only people registered with an id and a face descriptor can be
    recognized.  In every reachable state the stored descriptors are the
    ones built from the roster when the session started, and a matched id
    is the non-zero id of a person of the roster who has a face
    descriptor. *)
Theorem only_registered_faces (s : State) :
  reachable db s ->
  storedDescriptors s = buildDescriptors (allPeople s) /\
  forall i,
    lastMatchedId s = Some i ->
    i <> 0%Z /\
    exists p d,
      In p (allPeople s) /\ Database.id p = Some i /\
      Database.faceDescriptor p = Some d /\
      In {| id := i; descriptor_of := d |} (storedDescriptors s).
Proof.
  intros Hreach. destruct (reachable_roster s Hreach) as [Hs Hl].
  split; [exact Hs|].
  intros i Hi. destruct (Hl i Hi) as (sp & Hin & <-).
  pose proof Hin as Hin'. rewrite Hs in Hin'.
  destruct (buildDescriptors_sound _ sp Hin') as (Hnz & p & Hp & Hid & Hd).
  split; [exact Hnz|]. exists p, (descriptor_of sp).
  repeat split; auto. now destruct sp.
Qed.

(** X14. A session whose roster has no usable face never shows anybody: in
    a reachable state with no stored descriptor nothing is matched and no
    person is displayed, and a poll that detects a face sets the status to
    "No faces registered" without running the matcher. *)
Theorem no_registered_faces (s : State) :
  reachable db s ->
  storedDescriptors s = [] ->
  lastMatchedId s = None /\
  detectedPerson s = None /\
  (ready s ->
   forall result,
     recognize db s (Some result)
     = (setRecognitionStatus "No faces registered"
          (tracked (position result) s), [], Rescheduled 200)).
Proof.
  intros Hreach Hempty.
  destruct (reachable_roster s Hreach) as [_ Hl].
  destruct (reachable_invariant db s Hreach) as [Hc _].
  assert (Hnone : lastMatchedId s = None).
  { destruct (lastMatchedId s) as [i|] eqn:Hi; [|reflexivity].
    destruct (Hl i eq_refl) as (sp & Hin & _).
    rewrite Hempty in Hin. destruct Hin. }
  split; [exact Hnone|]. split.
  - unfold consistent in Hc. rewrite Hnone in Hc.
    now destruct (detectedPerson s).
  - intros (Hloop & Hvideo & Hmodels) result. unfold recognize, tracked.
    rewrite Hloop, Hvideo, Hmodels. cbn. rewrite Hempty.
    now destruct (descriptor result).
Qed.

End SessionExtras.



(** ** The overlay animator, continued *)

Section AnimatorExtras.

Import ARViewer.

(** X15. The smoothing never overshoots: whatever the number of frames,
    each coordinate of the smoothed position lies between its initial value
    and the target, and a further frame never increases the distance to the
    target. *)
Theorem frames_no_overshoot (n : nat) (s : State) :
  Rmin (x (smoothPos s)) (x (targetPos s)) <= x (smoothPos (frames n s))
  <= Rmax (x (smoothPos s)) (x (targetPos s)) /\
  Rmin (y (smoothPos s)) (y (targetPos s)) <= y (smoothPos (frames n s))
  <= Rmax (y (smoothPos s)) (y (targetPos s)) /\
  Rabs (offsetX (frames (S n) s)) <= Rabs (offsetX (frames n s)) /\
  Rabs (offsetY (frames (S n) s)) <= Rabs (offsetY (frames n s)).
Proof.
  destruct (frames_offsets n s) as (Ht & Hx & Hy).
  pose proof (pow_088_bounds n) as [Hpos Hle].
  assert (Hbetween : forall a t v c : R,
            0 < c <= 1 -> v - t = c * (a - t) ->
            Rmin a t <= v <= Rmax a t).
  { intros a t v c [Hc0 Hc1] Hv. unfold Rmin, Rmax.
    destruct (Rle_dec a t); nra. }
  split; [|split].
  - apply (Hbetween _ _ _ (0.88 ^ n)); [lra|].
    unfold offsetX in Hx. now rewrite Ht in Hx.
  - apply (Hbetween _ _ _ (0.88 ^ n)); [lra|].
    unfold offsetY in Hy. now rewrite Ht in Hy.
  - change (frames (S n) s) with (animate (frames n s)).
    rewrite animate_offsetX, animate_offsetY, !Rabs_mult.
    rewrite (Rabs_pos_eq 0.88) by lra.
    pose proof (Rabs_pos (offsetX (frames n s))).
    pose proof (Rabs_pos (offsetY (frames n s))).
    split; lra.
Qed.

End AnimatorExtras.

Section SessionExtrasExamples.

Import FaceDetection ARViewer Detector Session Scenario.

Lemma frame640_holds_the_face : inFrame frame640 (box foundAlice).
Proof.
  unfold inFrame, frame640, foundAlice, orNumber. cbn.
  destruct (Req_dec_T 640 0); destruct (Req_dec_T 480 0); repeat split; lra.
Qed.

Lemma detected_face_target_witness :
  exists result,
    detectFaceWithDescriptor true frame640 (Returned (Some foundAlice))
    = Some result /\
    descriptor result = Some (faceDescriptor foundAlice) /\
    0 <= faceX (position result) <= 100 /\
    0 <= faceY (position result) <= 100 /\
    let s' := fst (fst (recognize noConversations session (Some result))) in
    8 <= x (targetPos s') <= 85 /\ 10 <= y (targetPos s') <= 95.
Proof.
  apply (detected_face_target noConversations session frame640 foundAlice).
  - exact frame640_holds_the_face.
  - exact session_ready.
Defined.

Lemma recognized_reachable : reachable noConversations recognized.
Proof. apply reachable_step. apply reachable_init. Qed.

Lemma overlay_stays_in_bounds_witness :
  inBounds (targetPos recognized) /\ inBounds (smoothPos recognized) /\
  inBounds (overlayPos recognized) /\
  overlayPos recognized = smoothPos recognized.
Proof.
  apply (overlay_stays_in_bounds noConversations recognized).
  exact recognized_reachable.
Defined.



Lemma session_idle_or_ready_witness :
  idle (stopVideo recognized) /\
  cameraActive (stopVideo recognized) = false /\
  isTracking (stopVideo recognized) = false /\
  detectedPerson (stopVideo recognized) = detectedPerson recognized /\
  lastMatchedId (stopVideo recognized) = lastMatchedId recognized.
Proof.
  apply (proj1 session_idle_or_ready recognized);
    rewrite recognized_eq; reflexivity.
Defined.

Lemma displayed_summary_witness :
  exists i text,
    Database.id (person {| person := alice;
                           lastConvo :=
                             Some "No recent conversations recorded."%string |})
    = Some i /\
    lastConvo {| person := alice;
                 lastConvo :=
                   Some "No recent conversations recorded."%string |}
    = Some text /\
    text = summaryOrDefault (noConversations i) /\
    text <> EmptyString.
Proof.
  apply (displayed_summary noConversations recognized recognized_reachable).
  rewrite recognized_eq. reflexivity.
Defined.

Lemma recognize_identity_change_witness :
  let outcome := recognize noConversations session (at_ centre [0]) in
  let s' := fst (fst outcome) in
  exists mp,
    In mp (allPeople session) /\
    Database.id mp = Some 1%Z /\
    detectedPerson s'
    = Some {| person := mp;
              lastConvo := Some (summaryOrDefault (noConversations 1%Z)) |} /\
    lastMatchedId s' = Some 1%Z /\
    recognitionStatus s' = ("Recognized (" ++ percent 1 ++ "%)")%string /\
    (40 <= Math_round (1 * 100) <= 100)%Z /\
    fetches (snd (fst outcome)) = [1%Z] /\
    snd outcome = Rescheduled 200.
Proof.
  apply (recognize_identity_change noConversations session centre [0]
           {| personId := 1; similarity := 1 |}).
  - apply reachable_init.
  - exact session_ready.
  - apply findBestMatch_self.
  - discriminate.
Defined.

Lemma only_registered_faces_witness :
  storedDescriptors recognized = buildDescriptors (allPeople recognized) /\
  forall i,
    lastMatchedId recognized = Some i ->
    i <> 0%Z /\
    exists p d,
      In p (allPeople recognized) /\ Database.id p = Some i /\
      Database.faceDescriptor p = Some d /\
      In {| id := i; descriptor_of := d |} (storedDescriptors recognized).
Proof.
  apply (only_registered_faces noConversations recognized).
  exact recognized_reachable.
Defined.

Lemma no_registered_faces_witness :
  lastMatchedId nobody = None /\
  detectedPerson nobody = None /\
  (ready nobody ->
   forall result,
     recognize noConversations nobody (Some result)
     = (setRecognitionStatus "No faces registered"
          (tracked (position result) nobody), [], Rescheduled 200)).
Proof.
  apply (no_registered_faces noConversations nobody).
  - apply reachable_init.
  - reflexivity.
Defined.

End SessionExtrasExamples.

(** ** The store *)

Section StoreExtras.

Import Database Store.

Variable key : Conversation -> Z.

Lemma insertDesc_perm (c : Conversation) (l : list Conversation) :
  Permutation (insertDesc key c l) (c :: l).
Proof.
  induction l as [|y l IH]; cbn; [reflexivity|].
  destruct (Z.ltb (key c) (key y)); [|reflexivity].
  rewrite IH. apply perm_swap.
Qed.

Lemma sortDesc_perm (l : list Conversation) :
  Permutation (sortDesc key l) l.
Proof.
  induction l as [|c l IH]; cbn; [reflexivity|].
  rewrite insertDesc_perm. now constructor.
Qed.

Lemma insertDesc_sorted (c : Conversation) (l : list Conversation) :
  StronglySorted (latestFirst key) l ->
  StronglySorted (latestFirst key) (insertDesc key c l).
Proof.
  induction 1 as [|y l Hsorted IH Hall]; cbn.
  - repeat constructor.
  - destruct (Z.ltb_spec (key c) (key y)) as [Hlt|Hge].
    + constructor; [exact IH|].
      eapply Permutation_Forall;
        [apply Permutation_sym, insertDesc_perm|].
      constructor; [unfold latestFirst; lia | exact Hall].
    + constructor; [now constructor|].
      constructor; [exact Hge|].
      eapply Forall_impl; [|exact Hall].
      unfold latestFirst. intros a Ha. lia.
Qed.

Lemma sortDesc_sorted (l : list Conversation) :
  StronglySorted (latestFirst key) (sortDesc key l).
Proof.
  induction l as [|c l IH]; cbn; [constructor|].
  now apply insertDesc_sorted.
Qed.

Lemma insertDesc_first (c : Conversation) (l : list Conversation) :
  Forall (fun y => (key y <= key c)%Z) l ->
  insertDesc key c l = c :: l.
Proof.
  intros Hall. destruct l as [|y l]; [reflexivity|]. cbn.
  inversion Hall as [|? ? Hy _]; subst.
  destruct (Z.ltb_spec (key c) (key y)); [lia | reflexivity].
Qed.

End StoreExtras.

Section StoreClaims.

Import Database Store.

Lemma NoDup_map_filter {A B} (g : A -> B) (f : A -> bool) (l : list A) :
  NoDup (map g l) -> NoDup (map g (filter f l)).
Proof.
  induction l as [|a l IH]; cbn; [auto|].
  intros Hnd. inversion Hnd as [|? ? Hnotin Hnd']; subst.
  destruct (f a); cbn; [|auto].
  constructor; [|auto].
  intros Hin. apply Hnotin. apply in_map_iff in Hin as (b & Hb & Hin).
  apply filter_In in Hin as [Hin _]. apply in_map_iff. eauto.
Qed.

Lemma NoDup_map_snoc {A B} (g : A -> B) (l : list A) (a : A) :
  NoDup (map g l) -> ~ In (g a) (map g l) -> NoDup (map g (l ++ [a])).
Proof.
  intros Hnd Hnotin. rewrite map_app. cbn.
  eapply Permutation_NoDup; [apply Permutation_cons_append|].
  now constructor.
Qed.

Lemma find_snoc {A} (f : A -> bool) (l : list A) (a : A) :
  find f (l ++ [a])
  = match find f l with
    | Some y => Some y
    | None => if f a then Some a else None
    end.
Proof.
  induction l as [|y l IH]; cbn; [reflexivity|].
  now destruct (f y).
Qed.

Lemma hasId_exclusive (k other : Z) (p : Person) :
  other <> k -> ARViewer.hasId k p = true -> ARViewer.hasId other p = false.
Proof.
  unfold ARViewer.hasId. destruct (id p) as [i|]; [|discriminate].
  intros Hne Hk. apply Z.eqb_eq in Hk. subst i. now apply Z.eqb_neq.
Qed.

Lemma find_after_delete (k other : Z) (l : list Person) :
  other <> k ->
  find (ARViewer.hasId other)
       (filter (fun p => negb (ARViewer.hasId k p)) l)
  = find (ARViewer.hasId other) l.
Proof.
  intros Hne. induction l as [|p l IH]; cbn; [reflexivity|].
  destruct (ARViewer.hasId k p) eqn:Hk; cbn.
  - now rewrite (hasId_exclusive k other p Hne Hk).
  - now rewrite IH.
Qed.

Lemma find_deleted (k : Z) (l : list Person) :
  find (ARViewer.hasId k) (filter (fun p => negb (ARViewer.hasId k p)) l)
  = None.
Proof.
  induction l as [|p l IH]; cbn; [reflexivity|].
  destruct (ARViewer.hasId k p) eqn:Hk; cbn; [exact IH|].
  now rewrite Hk.
Qed.

Lemma filter_after_delete (k other : Z) (l : list Conversation) :
  other <> k ->
  filter (fun c => Z.eqb (personId c) other)
         (filter (fun c => negb (Z.eqb (personId c) k)) l)
  = filter (fun c => Z.eqb (personId c) other) l.
Proof.
  intros Hne. induction l as [|c l IH]; cbn; [reflexivity|].
  destruct (Z.eqb_spec (personId c) k) as [Hk|Hk]; cbn.
  - destruct (Z.eqb_spec (personId c) other); [congruence | exact IH].
  - now rewrite IH.
Qed.

Lemma filter_deleted (k : Z) (l : list Conversation) :
  filter (fun c => Z.eqb (personId c) k)
         (filter (fun c => negb (Z.eqb (personId c) k)) l) = [].
Proof.
  induction l as [|c l IH]; cbn; [reflexivity|].
  destruct (Z.eqb (personId c) k) eqn:Hk; cbn; [exact IH|].
  now rewrite Hk.
Qed.

(** X16. [getConversationsForPerson] lists exactly the conversations of the
    person, the latest date first, and [getLatestConversation] is the first
    of them: none when the person has no conversation, and otherwise one
    of the person's conversations whose date no other of them exceeds. *)
Theorem conversations_latest_first (person : Z) (db : DB) :
  Permutation (getConversationsForPerson person db)
    (filter (fun c => Z.eqb (personId c) person) (conversations db)) /\
  StronglySorted (latestFirst date) (getConversationsForPerson person db) /\
  match getLatestConversation person db with
  | Some c =>
      In c (conversations db) /\ personId c = person /\
      forall c', In c' (conversations db) -> personId c' = person ->
                 (date c' <= date c)%Z
  | None =>
      forall c, In c (conversations db) -> personId c <> person
  end.
Proof.
  assert (Hperm : Permutation (getConversationsForPerson person db)
            (filter (fun c => Z.eqb (personId c) person) (conversations db))).
  { unfold getConversationsForPerson. rewrite sortDesc_perm.
    apply Permutation_sym, Permutation_rev. }
  pose proof (sortDesc_sorted date
                (rev (filter (fun c => Z.eqb (personId c) person)
                        (conversations db)))) as Hsorted.
  fold (getConversationsForPerson person db) in Hsorted.
  split; [exact Hperm|]. split; [exact Hsorted|].
  unfold getLatestConversation.
  destruct (getConversationsForPerson person db) as [|c l]; cbn.
  - intros c Hin Hp.
    assert (Hc : In c (filter (fun c => Z.eqb (personId c) person)
                         (conversations db))).
    { apply filter_In. split; [exact Hin | now apply Z.eqb_eq]. }
    apply (Permutation_in c (Permutation_sym Hperm)) in Hc. destruct Hc.
  - assert (Hc : In c (filter (fun c => Z.eqb (personId c) person)
                         (conversations db)))
      by (apply (Permutation_in c Hperm); now left).
    apply filter_In in Hc as [Hin Hp]. apply Z.eqb_eq in Hp.
    split; [exact Hin|]. split; [exact Hp|].
    intros c' Hin' Hp'.
    assert (Hc' : In c' (c :: l)).
    { apply (Permutation_in c' (Permutation_sym Hperm)).
      apply filter_In. split; [exact Hin' | now apply Z.eqb_eq]. }
    destruct Hc' as [<-|Hc']; [lia|].
    inversion Hsorted as [|? ? _ Hall]; subst.
    rewrite Forall_forall in Hall. exact (Hall c' Hc').
Qed.

(** X17. Deleting a person deletes the person's conversations with it and
    nothing else: afterwards the person is not found and has no
    conversation, and every other person is found as before with the same
    conversations. *)
Theorem deletePerson_cascade (k : Z) (db : DB) :
  getPersonById k (deletePerson k db) = None /\
  getConversationsForPerson k (deletePerson k db) = [] /\
  getLatestConversation k (deletePerson k db) = None /\
  forall other,
    other <> k ->
    getPersonById other (deletePerson k db) = getPersonById other db /\
    getConversationsForPerson other (deletePerson k db)
    = getConversationsForPerson other db /\
    getLatestConversation other (deletePerson k db)
    = getLatestConversation other db.
Proof.
  unfold getPersonById, getLatestConversation, getConversationsForPerson,
    deletePerson. cbn [people conversations].
  rewrite find_deleted, filter_deleted. cbn.
  repeat split; try reflexivity;
    rewrite ?find_after_delete, ?filter_after_delete by assumption;
    reflexivity.
Qed.

Lemma deletePerson_cascade_witness :
  let db := snd (addConversation 1 "hello" "greeting" 10 10
                   (snd (addPerson "Alice" "Daughter" None
                           (snd (addPerson "Bob" "Son" None empty))))) in
  getPersonById 1 (deletePerson 2 db) = getPersonById 1 db /\
  getConversationsForPerson 1 (deletePerson 2 db)
  = getConversationsForPerson 1 db /\
  getLatestConversation 1 (deletePerson 2 db) = getLatestConversation 1 db.
Proof.
  cbn zeta.
  apply (proj2 (proj2 (proj2 (deletePerson_cascade 2 _)))). discriminate.
Defined.

Lemma fresh_person_key (db : DB) :
  wellFormed db -> find (ARViewer.hasId (nextPersonId db)) (people db) = None.
Proof.
  intros (_ & _ & Hp & _).
  destruct (find (ARViewer.hasId (nextPersonId db)) (people db)) as [p|] eqn:E;
    [|reflexivity].
  apply find_some in E as [Hin Hid]. destruct (Hp p Hin) as (i & Hi & Hlt).
  unfold ARViewer.hasId in Hid. rewrite Hi in Hid.
  apply Z.eqb_eq in Hid. lia.
Qed.

(** X18. In a well-formed store [addPerson] gives the new person a key that
    no person has, appends the person to the list returned by
    [getAllPeople], and makes [getPersonById] return the person for that
    key while every other key is looked up as before; the conversations are
    untouched. *)
Theorem addPerson_then_get (name relation : string)
    (faceDescriptor : option (list R)) (db : DB) :
  wellFormed db ->
  let k := fst (addPerson name relation faceDescriptor db) in
  let db' := snd (addPerson name relation faceDescriptor db) in
  let added := {| id := Some k; Database.name := name;
                  Database.relation := relation;
                  Database.faceDescriptor := faceDescriptor |} in
  k <> 0%Z /\
  getPersonById k db = None /\
  getPersonById k db' = Some added /\
  getAllPeople db' = getAllPeople db ++ [added] /\
  conversations db' = conversations db /\
  forall other, other <> k -> getPersonById other db' = getPersonById other db.
Proof.
  intros Hwf. cbn zeta. unfold getPersonById, getAllPeople, addPerson.
  cbn [fst snd people conversations].
  pose proof (fresh_person_key db Hwf) as Hfresh.
  destruct Hwf as (Hpos & _).
  split; [lia|]. split; [exact Hfresh|].
  split.
  { rewrite find_snoc, Hfresh. unfold ARViewer.hasId. cbn [id].
    now rewrite Z.eqb_refl. }
  split; [reflexivity|]. split; [reflexivity|].
  intros other Hne. rewrite find_snoc.
  destruct (find (ARViewer.hasId other) (people db)); [reflexivity|].
  unfold ARViewer.hasId. cbn [id].
  destruct (Z.eqb_spec (nextPersonId db) other); [congruence | reflexivity].
Qed.

Lemma empty_wellFormed : wellFormed empty.
Proof.
  unfold wellFormed, empty. cbn.
  repeat split; try lia; try constructor; intros ? [].
Qed.

Lemma addPerson_then_get_witness :
  1%Z <> 0%Z /\
  getPersonById 1 empty = None /\
  getPersonById 1 (snd (addPerson "Alice" "Daughter" (Some [0]) empty))
  = Some {| id := Some 1%Z; Database.name := "Alice";
            Database.relation := "Daughter";
            Database.faceDescriptor := Some [0] |} /\
  getAllPeople (snd (addPerson "Alice" "Daughter" (Some [0]) empty))
  = getAllPeople empty
      ++ [ {| id := Some 1%Z; Database.name := "Alice";
              Database.relation := "Daughter";
              Database.faceDescriptor := Some [0] |} ] /\
  conversations (snd (addPerson "Alice" "Daughter" (Some [0]) empty))
  = conversations empty /\
  forall other, other <> 1%Z ->
    getPersonById other (snd (addPerson "Alice" "Daughter" (Some [0]) empty))
    = getPersonById other empty.
Proof.
  apply (addPerson_then_get "Alice" "Daughter" (Some [0]) empty).
  exact empty_wellFormed.
Defined.

Lemma apply_wellFormed (op : Operation) (db : DB) :
  wellFormed db -> wellFormed (apply op db).
Proof.
  intros (Hpp & Hpc & Hp & Hnp & Hc & Hnc).
  destruct op as [name relation fd|k|person raw summ d cr|k];
    unfold wellFormed; cbn.
  - split; [lia|]. split; [exact Hpc|]. split; [|split; [|split]]; auto.
    + intros p Hin. apply in_app_or in Hin as [Hin|[<-|[]]].
      * destruct (Hp p Hin) as (i & Hi & Hlt). exists i. split; [exact Hi|lia].
      * exists (nextPersonId db). cbn. split; [reflexivity | lia].
    + apply NoDup_map_snoc; [exact Hnp|]. cbn.
      intros Hin. apply in_map_iff in Hin as (p & Hid & Hin).
      destruct (Hp p Hin) as (i & Hi & Hlt).
      rewrite Hi in Hid. injection Hid as Hid. lia.
  - split; [exact Hpp|]. split; [exact Hpc|]. split; [|split; [|split]].
    + intros p Hin. apply filter_In in Hin as [Hin _]. auto.
    + now apply NoDup_map_filter.
    + intros c Hin. apply filter_In in Hin as [Hin _]. auto.
    + now apply NoDup_map_filter.
  - split; [exact Hpp|]. split; [lia|]. split; [|split; [|split]]; auto.
    + intros c Hin. apply in_app_or in Hin as [Hin|[<-|[]]].
      * destruct (Hc c Hin) as (i & Hi & Hlt). exists i. split; [exact Hi|lia].
      * exists (nextConversationId db). cbn. split; [reflexivity | lia].
    + apply NoDup_map_snoc; [exact Hnc|]. cbn.
      intros Hin. apply in_map_iff in Hin as (c & Hid & Hin).
      destruct (Hc c Hin) as (i & Hi & Hlt).
      rewrite Hi in Hid. injection Hid as Hid. lia.
  - split; [exact Hpp|]. split; [exact Hpc|]. split; [|split; [|split]]; auto.
    + intros c Hin. apply filter_In in Hin as [Hin _]. auto.
    + now apply NoDup_map_filter.
Qed.

(** X19. Whatever people and conversations are added and deleted, starting
    from the empty store, every person and every conversation has a
    positive key below the next key of its table, and no two people and no
    two conversations share a key: a key is never given out twice, also
    after deletions. *)
Theorem store_stays_well_formed (ops : list Operation) :
  wellFormed (fold_left (fun db op => apply op db) ops empty).
Proof.
  assert (Hgen : forall db, wellFormed db ->
            wellFormed (fold_left (fun db op => apply op db) ops db)).
  { induction ops as [|op ops IH]; intros db Hwf; cbn; [exact Hwf|].
    apply IH. now apply apply_wellFormed. }
  apply Hgen. exact empty_wellFormed.
Qed.

Lemma latest_after_add (person : Z) (rawText summary : string)
    (date createdAt : Z) (db : DB) :
  (forall c, In c (conversations db) -> personId c = person ->
             (Database.date c <= date)%Z) ->
  getLatestConversation person
    (snd (addConversation person rawText summary date createdAt db))
  = Some (newConversation (nextConversationId db) person rawText summary
            date createdAt).
Proof.
  intros Hlatest.
  unfold getLatestConversation, getConversationsForPerson, addConversation.
  cbn [snd conversations].
  rewrite filter_app. cbn [filter personId]. rewrite Z.eqb_refl.
  rewrite rev_app_distr. cbn [rev app sortDesc].
  rewrite insertDesc_first; [reflexivity|].
  apply Forall_forall. intros c Hin. cbn [Database.date].
  apply (Permutation_in c (sortDesc_perm _ _)) in Hin.
  apply in_rev in Hin. apply filter_In in Hin as [Hin Hp].
  apply Z.eqb_eq in Hp. now apply Hlatest.
Qed.

(** X20. A conversation logged with a date that is not earlier than the
    dates of the person's conversations becomes the person's latest
    conversation; the latest conversation of every other person stays the
    same. *)
Theorem addConversation_becomes_latest (person : Z) (rawText summary : string)
    (date createdAt : Z) (db : DB) :
  (forall c, In c (conversations db) -> personId c = person ->
             (Database.date c <= date)%Z) ->
  let db' := snd (addConversation person rawText summary date createdAt db) in
  getLatestConversation person db'
  = Some (newConversation (nextConversationId db) person rawText summary
            date createdAt) /\
  forall other, other <> person ->
    getLatestConversation other db' = getLatestConversation other db.
Proof.
  intros Hlatest. cbn zeta. split; [now apply latest_after_add|].
  unfold getLatestConversation, getConversationsForPerson, addConversation.
  cbn [snd conversations].
  intros other Hne. rewrite filter_app. cbn [filter personId].
  destruct (Z.eqb_spec person other); [congruence|].
  now rewrite app_nil_r.
Qed.

Lemma addConversation_becomes_latest_witness :
  getLatestConversation 1
    (snd (addConversation 1 "We had lunch" "Talked about lunch" 20 21
            (snd (addConversation 1 "hello" "greeting" 10 10 empty))))
  = Some (newConversation 2 1 "We had lunch" "Talked about lunch" 20 21).
Proof.
  apply (proj1 (addConversation_becomes_latest 1 "We had lunch"
                  "Talked about lunch" 20 21
                  (snd (addConversation 1 "hello" "greeting" 10 10 empty))
                  ltac:(intros c [<-|[]] _; cbn; lia))).
Defined.

(** X21. [getStats] counts all people and all conversations and lists at
    most five conversations, the latest created first; every conversation
    of the store that is not listed was created no later than each listed
    one. *)
Theorem getStats_recent (db : DB) :
  totalPeople (getStats db) = length (people db) /\
  totalConversations (getStats db) = length (conversations db) /\
  length (recentConversations (getStats db))
  = Nat.min 5 (length (conversations db)) /\
  StronglySorted (latestFirst createdAt) (recentConversations (getStats db)) /\
  (forall c, In c (recentConversations (getStats db)) ->
             In c (conversations db)) /\
  (forall c r,
      In c (conversations db) ->
      ~ In c (recentConversations (getStats db)) ->
      In r (recentConversations (getStats db)) ->
      (createdAt c <= createdAt r)%Z).
Proof.
  unfold getStats. cbn [totalPeople totalConversations recentConversations].
  set (sorted := sortDesc createdAt (rev (conversations db))).
  assert (Hperm : Permutation sorted (conversations db)).
  { unfold sorted. rewrite sortDesc_perm.
    apply Permutation_sym, Permutation_rev. }
  assert (Hsorted : StronglySorted (latestFirst createdAt) sorted)
    by apply sortDesc_sorted.
  split; [reflexivity|]. split; [reflexivity|]. split.
  { rewrite length_firstn. now rewrite (Permutation_length Hperm). }
  rewrite <- (firstn_skipn 5 sorted) in Hsorted.
  split; [|split].
  - clear Hperm. revert Hsorted. generalize (skipn 5 sorted).
    induction (firstn 5 sorted) as [|a l IH]; intros rest Hs; [constructor|].
    cbn in Hs. inversion Hs as [|? ? Hs' Hall]; subst.
    constructor; [now apply (IH rest)|].
    apply Forall_app in Hall. tauto.
  - intros c Hin. apply (Permutation_in c Hperm).
    rewrite <- (firstn_skipn 5 sorted). apply in_or_app. now left.
  - intros c r Hc Hnot Hr.
    apply (Permutation_in c (Permutation_sym Hperm)) in Hc.
    rewrite <- (firstn_skipn 5 sorted) in Hc.
    apply in_app_or in Hc as [Hc|Hc]; [contradiction|].
    clear Hperm Hnot. revert Hsorted Hr Hc. generalize (skipn 5 sorted).
    induction (firstn 5 sorted) as [|a l IH]; intros rest Hs Hr Hc;
      [destruct Hr|].
    cbn in Hs. inversion Hs as [|? ? Hs' Hall]; subst.
    destruct Hr as [<-|Hr]; [|now apply (IH rest)].
    rewrite Forall_forall in Hall. apply Hall. apply in_or_app. now right.
Qed.

End StoreClaims.

(** ** Strings, the people page and the summarizer *)

Section StringFacts.

Import Gemini.

Open Scope string_scope.

Lemma append_assoc_s (a b c : string) : (a ++ b) ++ c = a ++ (b ++ c).
Proof. induction a as [|x a IH]; cbn; [reflexivity | now rewrite IH]. Qed.

Lemma append_nil_r_s (a : string) : a ++ EmptyString = a.
Proof. induction a as [|x a IH]; cbn; [reflexivity | now rewrite IH]. Qed.

Lemma prefix_spec (a s : string) :
  String.prefix a s = true <-> exists post, s = a ++ post.
Proof.
  revert s. induction a as [|x a IH]; intros s.
  - split; [intros _; now exists s | intros _; now destruct s].
  - destruct s as [|y s]; cbn.
    + split; [discriminate | intros [post H]; discriminate].
    + destruct (Ascii.ascii_dec x y) as [->|Hne].
      * rewrite IH. split; intros [post H]; exists post; congruence.
      * split; [discriminate | intros [post H]; congruence].
Qed.

Lemma includes_unfold (needle s : string) :
  includes needle s
  = if String.prefix needle s then true
    else match s with
         | EmptyString => false
         | String _ s' => includes needle s'
         end.
Proof. now destruct s. Qed.

Lemma includes_spec (needle s : string) :
  includes needle s = true <-> exists pre post, s = pre ++ needle ++ post.
Proof.
  induction s as [|y s IH]; rewrite includes_unfold.
  - destruct (String.prefix needle EmptyString) eqn:Hp.
    + apply prefix_spec in Hp as [post Hp].
      split; [intros _; now exists EmptyString, post | reflexivity].
    + split; [discriminate|]. intros (pre & post & H).
      destruct pre; cbn in H.
      * assert (Hp' : String.prefix needle EmptyString = true)
          by (apply prefix_spec; now exists post).
        congruence.
      * discriminate.
  - destruct (String.prefix needle (String y s)) eqn:Hp.
    + apply prefix_spec in Hp as [post Hp].
      split; [intros _; now exists EmptyString, post | reflexivity].
    + rewrite IH. split.
      * intros (pre & post & ->). now exists (String y pre), post.
      * intros (pre & post & H). destruct pre as [|z pre]; cbn in H.
        -- assert (Hp' : String.prefix needle (String y s) = true)
             by (apply prefix_spec; now exists post).
           congruence.
        -- injection H as _ ->. now exists pre, post.
Qed.

Lemma includes_empty (s : string) : includes EmptyString s = true.
Proof. apply includes_spec. now exists EmptyString, s. Qed.

Lemma includes_shorter (q more s : string) :
  includes (q ++ more) s = true -> includes q s = true.
Proof.
  intros H. apply includes_spec in H as (pre & post & ->).
  apply includes_spec. exists pre, (more ++ post).
  now rewrite append_assoc_s.
Qed.

Lemma lowerChar_idem (c : ascii) : lowerChar (lowerChar c) = lowerChar c.
Proof. destruct c as [[] [] [] [] [] [] [] []]; reflexivity. Qed.

Lemma toLowerCase_idem (s : string) :
  toLowerCase (toLowerCase s) = toLowerCase s.
Proof.
  induction s as [|c s IH]; cbn; [reflexivity|].
  now rewrite lowerChar_idem, IH.
Qed.

Lemma toLowerCase_app (a b : string) :
  toLowerCase (a ++ b) = toLowerCase a ++ toLowerCase b.
Proof. induction a as [|c a IH]; cbn; [reflexivity | now rewrite IH]. Qed.

End StringFacts.

Section PeoplePageExtras.

Import Database PeoplePage.

Open Scope string_scope.

Lemma matchesQuery_shorter (q more : string) (p : Person) :
  matchesQuery (q ++ more) p = true -> matchesQuery q p = true.
Proof.
  unfold matchesQuery. rewrite toLowerCase_app.
  intros H. apply orb_true_iff in H. apply orb_true_iff.
  destruct H as [H|H]; [left | right]; now apply includes_shorter in H.
Qed.

(** X22. The search box of the people page.  The empty query lists
    everybody; the case of the query does not matter; a person whose name
    or relation contains the query is listed; and typing more characters
    only removes people from the list. *)
Theorem filteredPeople_search (people : list Person) (q : string) :
  filteredPeople people EmptyString = people /\
  filteredPeople people (Gemini.toLowerCase q) = filteredPeople people q /\
  (forall p pre post,
      In p people ->
      name p = pre ++ q ++ post \/ relation p = pre ++ q ++ post ->
      In p (filteredPeople people q)) /\
  (forall more p,
      In p (filteredPeople people (q ++ more)) ->
      In p (filteredPeople people q) /\ In p people).
Proof.
  unfold filteredPeople. split; [|split; [|split]].
  - induction people as [|p people IH]; cbn; [reflexivity|].
    unfold matchesQuery at 1. cbn [Gemini.toLowerCase].
    rewrite includes_empty. cbn. now rewrite IH.
  - apply filter_ext. intros p. unfold matchesQuery.
    now rewrite toLowerCase_idem.
  - intros p pre post Hin Hq. apply filter_In. split; [exact Hin|].
    unfold matchesQuery. apply orb_true_iff.
    destruct Hq as [Hq|Hq]; [left | right]; rewrite Hq;
      rewrite !toLowerCase_app; apply includes_spec; eauto.
  - intros more p Hin. apply filter_In in Hin as [Hin Hm].
    split; [|exact Hin]. apply filter_In. split; [exact Hin|].
    now apply matchesQuery_shorter in Hm.
Qed.

Lemma filteredPeople_search_witness :
  In Scenario.alice (filteredPeople [Scenario.alice; Scenario.bob] "li") /\
  In Scenario.alice [Scenario.alice; Scenario.bob].
Proof.
  apply (proj2 (proj2 (proj2
           (filteredPeople_search [Scenario.alice; Scenario.bob] "li")))
           "c" Scenario.alice).
  apply (proj1 (proj2 (proj2
           (filteredPeople_search [Scenario.alice; Scenario.bob] "lic")))
           Scenario.alice "A" "e").
  - now left.
  - left. reflexivity.
Defined.

End PeoplePageExtras.

Section RegistrationExtras.

Import FaceDetection ARViewer PeoplePage.

Lemma buildDescriptors_app (l l' : list Database.Person) :
  buildDescriptors (l ++ l') = (buildDescriptors l ++ buildDescriptors l')%list.
Proof.
  induction l as [|p l IH]; cbn [buildDescriptors app]; [reflexivity|].
  destruct (Database.id p) as [i|]; [|exact IH].
  destruct (Database.faceDescriptor p) as [d|]; [|exact IH].
  destruct (Z.eqb i 0); [exact IH|]. now rewrite IH.
Qed.




Lemma handleSubmit_adds (form : Form) (db : Store.DB) :
  formName form <> EmptyString -> formRelation form <> EmptyString ->
  photoFile form = true ->
  handleSubmit form db
  = snd (Store.addPerson (formName form) (formRelation form)
           (faceDescriptor form) db).
Proof.
  intros Hname Hrelation Hphoto. unfold handleSubmit.
  apply String.eqb_neq in Hname, Hrelation.
  now rewrite Hname, Hrelation, Hphoto.
Qed.

Lemma handleSubmit_descriptors (form : Form) (db : Store.DB) :
  Store.wellFormed db ->
  formName form <> EmptyString -> formRelation form <> EmptyString ->
  photoFile form = true ->
  buildDescriptors (Store.getAllPeople (handleSubmit form db))
  = (buildDescriptors (Store.getAllPeople db)
       ++ match faceDescriptor form with
          | Some d => [ {| id := Store.nextPersonId db; descriptor_of := d |} ]
          | None => []
          end)%list.
Proof.
  intros (Hpos & _) Hname Hrelation Hphoto.
  rewrite (handleSubmit_adds form db Hname Hrelation Hphoto).
  unfold Store.getAllPeople, Store.addPerson. cbn [snd Store.people].
  rewrite buildDescriptors_app. f_equal. cbn.
  destruct (faceDescriptor form) as [d|]; [|reflexivity].
  destruct (Z.eqb_spec (Store.nextPersonId db) 0); [lia | reflexivity].
Qed.

(** X23. What the form of the people page adds.  Nothing is saved while the
    name, the relation or the photo is missing.  Otherwise one person is
    appended to the store, and the descriptors a later session builds from
    it grow by that person's descriptor when a face was found in the photo,
    and not at all when none was found. *)
Theorem handleSubmit_registers (form : Form) (db : Store.DB) :
  Store.wellFormed db ->
  (formName form = EmptyString \/ formRelation form = EmptyString \/
   photoFile form = false -> handleSubmit form db = db) /\
  (formName form <> EmptyString -> formRelation form <> EmptyString ->
   photoFile form = true ->
   Store.getAllPeople (handleSubmit form db)
   = (Store.getAllPeople db
        ++ [ {| Database.id := Some (Store.nextPersonId db);
                Database.name := formName form;
                Database.relation := formRelation form;
                Database.faceDescriptor := faceDescriptor form |} ])%list /\
   buildDescriptors (Store.getAllPeople (handleSubmit form db))
   = (buildDescriptors (Store.getAllPeople db)
        ++ match faceDescriptor form with
           | Some d => [ {| id := Store.nextPersonId db; descriptor_of := d |} ]
           | None => []
           end)%list).
Proof.
  intros Hwf. split.
  - unfold handleSubmit. intros [H|[H|H]]; rewrite H; cbn;
      rewrite ?orb_true_r; reflexivity.
  - intros Hname Hrelation Hphoto.
    split; [|now apply handleSubmit_descriptors].
    now rewrite (handleSubmit_adds form db Hname Hrelation Hphoto).
Qed.


End RegistrationExtras.

Section SummarizerExtras.

Import Gemini.

Open Scope string_scope.




Lemma summarizeConversation_returns key network text :
  exists summary, summarizeConversation key network text = Returned summary.
Proof.
  unfold summarizeConversation.
  destruct (truthy key); cbn [negb]; [|eauto].
  destruct network as [e|r]; cbn [obind tryCatch]; [eauto|].
  destruct (Z.eqb (status r) 429); cbn [tryCatch]; [eauto|].
  destruct (ok r); cbn [negb tryCatch]; [|eauto].
  destruct (json r) as [data|e]; cbn [obind tryCatch]; [|eauto].
  destruct (extractSummary data) as [[v|]|e]; cbn [obind tryCatch];
    [|eauto|eauto].
  destruct (String.eqb v EmptyString); cbn [tryCatch]; eauto.
Qed.

(** X26. The connection check never throws and reports a connection
    exactly when a key is configured and the probe is answered with an OK
    status; whenever it reports none, summarizing over the same key and
    the same answer of the network gives the fallback summary. *)
Theorem checkGeminiConnection_agrees (key : option string)
    (network : FetchResult) (text : string) :
  (exists connected, checkGeminiConnection key network = Returned connected) /\
  (checkGeminiConnection key network = Returned true <->
   truthy key = true /\ exists r, network = Responded r /\ ok r = true) /\
  (checkGeminiConnection key network = Returned false ->
   summarizeConversation key network text
   = Returned (createFallbackSummary text)).
Proof.
  unfold checkGeminiConnection.
  destruct (truthy key) eqn:Hkey; cbn [negb].
  - destruct network as [e|r]; cbn [obind tryCatch].
    + split; [eauto|]. split.
      * split; [discriminate | intros (_ & r & H & _); discriminate].
      * intros _. unfold summarizeConversation. now rewrite Hkey.
    + split; [eauto|]. split.
      * split.
        -- intros [= Hok]. split; [reflexivity | eauto].
        -- intros (_ & r' & [= <-] & Hok). now rewrite Hok.
      * intros [= Hok]. unfold summarizeConversation. rewrite Hkey.
        cbn [negb obind]. rewrite Hok.
        now destruct (Z.eqb (status r) 429).
  - split; [eauto|]. split.
    + split; [discriminate | intros [H _]; discriminate].
    + intros _. now apply summarizeConversation_without_key.
Qed.

Lemma checkGeminiConnection_agrees_witness :
  summarizeConversation (Some "key")
    (Responded {| status := 429; json := Returned JNull |}) "We had lunch"
  = Returned (createFallbackSummary "We had lunch").
Proof.
  apply (proj2 (proj2 (checkGeminiConnection_agrees (Some "key")
                  (Responded {| status := 429; json := Returned JNull |})
                  "We had lunch"))).
  reflexivity.
Defined.

End SummarizerExtras.

Section PersonDetailExtras.

Import PersonDetail.

Open Scope string_scope.

(** X27. Logging a conversation with the summarizer.  For a person with a
    key and a text that is not blank, the conversation is saved whatever
    the network does: one row is appended for that person with the text as
    typed and the summary that [summarizeConversation] returned, which is
    the fallback summary when no API key is configured; the people are
    untouched. *)
Theorem handleAddConversation_with_AI (form : ConversationForm)
    (person : option Database.Person) (i : Z) (key : option string)
    (network : Gemini.FetchResult) (date createdAt : Z) (db : Store.DB) :
  personKey person = Some i ->
  blank (convoText form) = false ->
  useAI form = true ->
  let db' := handleAddConversation form person key network date createdAt db in
  exists summary,
    Gemini.summarizeConversation key network (convoText form)
    = Returned summary /\
    Store.conversations db'
    = (Store.conversations db
         ++ [Store.newConversation (Store.nextConversationId db) i
               (convoText form) summary date createdAt])%list /\
    Store.people db' = Store.people db /\
    (Gemini.truthy key = false ->
     summary = Gemini.createFallbackSummary (convoText form)).
Proof.
  intros Hkey Hblank Hai. cbn zeta. unfold handleAddConversation.
  rewrite Hkey, Hblank, Hai. cbn [negb andb].
  destruct (summarizeConversation_returns key network (convoText form))
    as [summary Hsum].
  rewrite Hsum. exists summary. split; [reflexivity|].
  split; [reflexivity|]. split; [reflexivity|].
  intros Hnokey.
  rewrite (summarizeConversation_without_key key network _ Hnokey) in Hsum.
  congruence.
Qed.

(** X28. From the conversation form to the overlay.  A conversation logged
    with a manual summary, for a person with a key, with a text and a
    summary that are not blank and a date not earlier than the person's
    other conversations, is what the viewer shows next: when a session
    that reads this store recognizes that person as a new identity, the
    text displayed with the person is the trimmed manual summary. *)
Theorem manual_summary_is_shown (form : ConversationForm)
    (person : option Database.Person) (i : Z) (key : option string)
    (network : Gemini.FetchResult) (date createdAt : Z) (db : Store.DB) :
  personKey person = Some i ->
  blank (convoText form) = false ->
  useAI form = false ->
  blank (manualSummary form) = false ->
  (forall c, In c (Store.conversations db) -> Database.personId c = i ->
             (Database.date c <= date)%Z) ->
  let db' := handleAddConversation form person key network date createdAt db in
  let store := fun k => Store.getLatestConversation k db' in
  forall s pos d m,
    ARViewer.reachable store s ->
    ARViewer.ready s ->
    result (FaceDetection.findBestMatch d (ARViewer.storedDescriptors s))
    = Returned (Some m) ->
    FaceDetection.personId m = i ->
    ARViewer.lastMatchedId s <> Some i ->
    exists mp,
      ARViewer.detectedPerson
        (fst (fst (ARViewer.recognize store s
                     (Some {| ARViewer.position := pos;
                              ARViewer.descriptor := Some d |}))))
      = Some {| ARViewer.person := mp;
                ARViewer.lastConvo := Some (Gemini.trim (manualSummary form)) |}.
Proof.
  intros Hkey Htext Hmanual Hsummary Hlatest. cbn zeta.
  intros s pos d m Hreach Hready Hres Hid Hlast. subst i.
  assert (Hdb : handleAddConversation form person key network date createdAt db
                = snd (Store.addConversation (FaceDetection.personId m)
                         (convoText form) (Gemini.trim (manualSummary form))
                         date createdAt db)).
  { unfold handleAddConversation.
    now rewrite Hkey, Htext, Hmanual, Hsummary. }
  destruct (findBestMatch_returned d _ m Hres)
    as (_ & _ & l1 & sp & l2 & Hl & Hm & _).
  assert (Hne : ARViewer.storedDescriptors s <> [])
    by (rewrite Hl; now destruct l1).
  destruct (reachable_invariant _ s Hreach) as [_ Hcover].
  assert (Hin : In sp (ARViewer.storedDescriptors s))
    by (rewrite Hl; apply in_or_app; right; now left).
  specialize (Hcover sp Hin).
  replace (FaceDetection.id sp) with (FaceDetection.personId m) in Hcover
    by now rewrite Hm.
  destruct (find (ARViewer.hasId (FaceDetection.personId m))
              (ARViewer.allPeople s)) as [mp|] eqn:Hp; [|contradiction].
  rewrite (recognize_new _ s pos d m mp Hready Hne Hres Hlast Hp).
  exists mp. cbn [fst]. cbn [ARViewer.detectedPerson ARViewer.setRecognitionStatus
                              ARViewer.setDetectedPerson].
  rewrite Hdb, (latest_after_add _ _ _ _ _ db Hlatest).
  unfold ARViewer.summaryOrDefault, Store.newConversation.
  cbn [Database.summary]. unfold blank in Hsummary. now rewrite Hsummary.
Qed.

End PersonDetailExtras.

Section RegistrationExamples.

Import FaceDetection ARViewer Scenario.

Lemma handleSubmit_registers_witness :
  Store.getAllPeople (PeoplePage.handleSubmit aliceForm Store.empty)
  = (Store.getAllPeople Store.empty
       ++ [ {| Database.id := Some (Store.nextPersonId Store.empty);
               Database.name := PeoplePage.formName aliceForm;
               Database.relation := PeoplePage.formRelation aliceForm;
               Database.faceDescriptor :=
                 PeoplePage.faceDescriptor aliceForm |} ])%list /\
  buildDescriptors
    (Store.getAllPeople (PeoplePage.handleSubmit aliceForm Store.empty))
  = (buildDescriptors (Store.getAllPeople Store.empty)
       ++ match PeoplePage.faceDescriptor aliceForm with
          | Some d =>
              [ {| id := Store.nextPersonId Store.empty; descriptor_of := d |} ]
          | None => []
          end)%list.
Proof.
  apply (proj2 (handleSubmit_registers aliceForm Store.empty
                  empty_wellFormed)).
  - discriminate.
  - discriminate.
  - reflexivity.
Defined.


Lemma handleAddConversation_with_AI_witness :
  exists summary,
    Gemini.summarizeConversation None
      (Gemini.NetworkError (TypeError "Failed to fetch"))
      (PersonDetail.convoText lunchSummarized)
    = Returned summary /\
    Store.conversations
      (PersonDetail.handleAddConversation lunchSummarized (Some alice) None
         (Gemini.NetworkError (TypeError "Failed to fetch")) 20 21 Store.empty)
    = (Store.conversations Store.empty
         ++ [Store.newConversation (Store.nextConversationId Store.empty) 1
               (PersonDetail.convoText lunchSummarized) summary 20 21])%list /\
    Store.people
      (PersonDetail.handleAddConversation lunchSummarized (Some alice) None
         (Gemini.NetworkError (TypeError "Failed to fetch")) 20 21 Store.empty)
    = Store.people Store.empty /\
    (Gemini.truthy None = false ->
     summary
     = Gemini.createFallbackSummary (PersonDetail.convoText lunchSummarized)).
Proof.
  apply (handleAddConversation_with_AI lunchSummarized (Some alice) 1 None
           (Gemini.NetworkError (TypeError "Failed to fetch")) 20 21
           Store.empty); reflexivity.
Defined.

Lemma manual_summary_is_shown_witness :
  let db' :=
    PersonDetail.handleAddConversation lunchTyped (Some alice) None
      (Gemini.NetworkError (TypeError "Failed to fetch")) 20 21 Store.empty in
  let store := fun k => Store.getLatestConversation k db' in
  exists mp,
    detectedPerson
      (fst (fst (recognize store session
                   (Some {| position := centre; descriptor := Some [0] |}))))
    = Some {| person := mp;
              lastConvo :=
                Some (Gemini.trim (PersonDetail.manualSummary lunchTyped)) |}.
Proof.
  cbn zeta.
  apply (manual_summary_is_shown lunchTyped (Some alice) 1 None
           (Gemini.NetworkError (TypeError "Failed to fetch")) 20 21
           Store.empty eq_refl eq_refl eq_refl eq_refl
           ltac:(intros c [])
           session centre [0] {| personId := 1; similarity := 1 |}).
  - apply reachable_init.
  - exact session_ready.
  - apply findBestMatch_self.
  - reflexivity.
  - discriminate.
Defined.

End RegistrationExamples.

Section ConversationExtras.

Import Database Store.

Lemma not_listed_key (k : Z) (l : list Conversation) :
  ~ In (Some k) (map conversationId l) ->
  filter (fun c => negb (hasConversationId k c)) l = l /\
  existsb (hasConversationId k) l = false.
Proof.
  induction l as [|c l IH]; cbn; [auto|].
  intros Hnot.
  assert (Hc : hasConversationId k c = false).
  { unfold hasConversationId.
    destruct (conversationId c) as [i|] eqn:Hi; [|reflexivity].
    apply Z.eqb_neq. intros ->. apply Hnot. now left. }
  rewrite Hc. cbn. destruct IH as [-> ->]; [tauto | auto].
Qed.

Lemma hasConversationId_true (k : Z) (c : Conversation) :
  hasConversationId k c = true <-> conversationId c = Some k.
Proof.
  unfold hasConversationId. destruct (conversationId c) as [i|].
  - rewrite Z.eqb_eq. split; congruence.
  - split; discriminate.
Qed.

(** X29. In a well-formed store [deleteConversation] removes the
    conversation with the given key and nothing else: the people and every
    other conversation stay, in the same order, and the number of
    conversations drops by one when the key was in use and not at all
    otherwise. *)
Theorem deleteConversation_removes_one (k : Z) (db : DB) :
  wellFormed db ->
  let db' := deleteConversation k db in
  people db' = people db /\
  conversations db'
  = filter (fun c => negb (hasConversationId k c)) (conversations db) /\
  (forall c, In c (conversations db') <->
             In c (conversations db) /\ conversationId c <> Some k) /\
  (length (conversations db')
   + (if existsb (hasConversationId k) (conversations db) then 1 else 0)
   = length (conversations db))%nat.
Proof.
  intros (_ & _ & _ & _ & _ & Hnd). cbn zeta.
  unfold deleteConversation. cbn [people conversations].
  split; [reflexivity|]. split; [reflexivity|]. split.
  - intros c. rewrite filter_In. rewrite negb_true_iff.
    rewrite <- not_true_iff_false, hasConversationId_true. tauto.
  - induction (conversations db) as [|c l IH]; cbn; [reflexivity|].
    inversion Hnd as [|? ? Hnotin Hnd']; subst.
    destruct (hasConversationId k c) eqn:Hc; cbn.
    + apply hasConversationId_true in Hc. rewrite Hc in Hnotin.
      destruct (not_listed_key k l Hnotin) as [-> _]. lia.
    + rewrite <- (IH Hnd'). lia.
Qed.

Lemma deleteConversation_removes_one_witness :
  let db := snd (addConversation 1 "hello" "greeting" 10 10 empty) in
  people (deleteConversation 1 db) = people db /\
  conversations (deleteConversation 1 db)
  = filter (fun c => negb (hasConversationId 1 c)) (conversations db) /\
  (forall c, In c (conversations (deleteConversation 1 db)) <->
             In c (conversations db) /\ conversationId c <> Some 1%Z) /\
  (length (conversations (deleteConversation 1 db))
   + (if existsb (hasConversationId 1) (conversations db) then 1 else 0)
   = length (conversations db))%nat.
Proof.
  apply (deleteConversation_removes_one 1
           (snd (addConversation 1 "hello" "greeting" 10 10 empty))).
  exact (apply_wellFormed (AddConversation 1 "hello" "greeting" 10 10) empty
           empty_wellFormed).
Defined.

End ConversationExtras.

Section ConversationFormExtras.

Import PersonDetail.

(** X30. [handleAddConversation] leaves the store as it is exactly when
    the person has no key, the text is blank, or a manual summary is asked
    for and is blank; in every other case a conversation is saved. *)
Theorem handleAddConversation_saves_iff (form : ConversationForm)
    (person : option Database.Person) (key : option string)
    (network : Gemini.FetchResult) (date createdAt : Z) (db : Store.DB) :
  handleAddConversation form person key network date createdAt db = db <->
  personKey person = None \/
  blank (convoText form) = true \/
  (useAI form = false /\ blank (manualSummary form) = true).
Proof.
  assert (Hgrow : forall i text,
            snd (Store.addConversation i (convoText form) text
                   date createdAt db) <> db).
  { intros i text Heq.
    apply (f_equal (fun d => length (Store.conversations d))) in Heq.
    unfold Store.addConversation in Heq. cbn in Heq.
    rewrite length_app in Heq. cbn in Heq. lia. }
  unfold handleAddConversation.
  destruct (personKey person) as [i|]; [|split; auto].
  destruct (blank (convoText form)); [split; auto|].
  destruct (useAI form); cbn [negb andb].
  - destruct (summarizeConversation_returns key network (convoText form))
      as [summary ->].
    split.
    + intros Heq. now apply Hgrow in Heq.
    + intros [H|[H|[H _]]]; discriminate.
  - destruct (blank (manualSummary form)); [split; auto|].
    split.
    + intros Heq. now apply Hgrow in Heq.
    + intros [H|[H|[_ H]]]; discriminate.
Qed.

End ConversationFormExtras.
